(** * Snowpack: import rewriting and the build crawler

    A shallow embedding of
      - [snowpack/src/rewrite-imports.ts] (the specifier rewriter), and
      - the build command ([removeEmptyFolders], [flushFileQueue], [build],
        [command]),
    together with the properties of the specification that concern them.

    JavaScript strings are modelled by [string]: a sequence of code units,
    here restricted to the code units 0..255.  Offsets are [nat].  Loops
    whose termination depends on their data ([while (regex.exec(...))],
    [while (queue.length > 0)]) take a fuel argument and answer [OutOfFuel]
    when it is exhausted. *)

From Stdlib Require Import String Ascii List Arith Bool ZArith Lia.
Import ListNotations.
Local Open Scope string_scope.
Local Open Scope list_scope.

(** ** Outcomes of fallible, possibly non-terminating code *)

Inductive error : Type :=
| IncompatibleFiletype (baseExt : string)
| ExternalError (message : string).

Inductive outcome (A : Type) : Type :=
| Return (a : A)
| Throw (e : error)
| OutOfFuel.
Arguments Return {A} a.
Arguments Throw {A} e.
Arguments OutOfFuel {A}.

Definition bind {A B : Type} (m : outcome A) (k : A -> outcome B) : outcome B :=
  match m with
  | Return a => k a
  | Throw e => Throw e
  | OutOfFuel => OutOfFuel
  end.

Notation "'await' x <- m ;; k" := (bind m (fun x => k))
  (at level 61, x name, m at next level, right associativity).

(** ** JavaScript string primitives *)

(** [s.slice(n)] for [0 <= n]. *)
Fixpoint sliceFrom (n : nat) (s : string) : string :=
  match n, s with
  | 0, _ => s
  | S _, EmptyString => EmptyString
  | S n', String _ s' => sliceFrom n' s'
  end.

(** [s.slice(0, n)] for [0 <= n]. *)
Fixpoint sliceTo (n : nat) (s : string) : string :=
  match n, s with
  | 0, _ => EmptyString
  | S _, EmptyString => EmptyString
  | S n', String c s' => String c (sliceTo n' s')
  end.

(** [s.substring(a, b)]: the arguments are swapped when [a > b]. *)
Definition js_substring (a b : nat) (s : string) : string :=
  sliceTo (Nat.max a b - Nat.min a b) (sliceFrom (Nat.min a b) s).

(** [s.startsWith(p)]. *)
Definition startsWith (p s : string) : bool := prefix p s.

(** [\s] of a regular expression and the blanks of [String.prototype.trim],
    among the code units 0..255. *)
Definition isSpace (c : ascii) : bool :=
  let n := nat_of_ascii c in
  ((9 <=? n)%nat && (n <=? 13)%nat) || (n =? 32)%nat || (n =? 160)%nat.

(** [!!s.trim()]: some code unit of [s] is not blank. *)
Fixpoint trimIsTruthy (s : string) : bool :=
  match s with
  | EmptyString => false
  | String c s' => negb (isSpace c) || trimIsTruthy s'
  end.

(** Position of the first occurrence of [pat] in [s]. *)
Fixpoint indexOf (pat s : string) : option nat :=
  if prefix pat s then Some 0
  else match s with
       | EmptyString => None
       | String _ s' => option_map S (indexOf pat s')
       end.

(** [s.replace(pat, rep)] with a string pattern: the first occurrence only. *)
Fixpoint replaceFirst (pat rep s : string) : string :=
  if prefix pat s then rep ++ sliceFrom (String.length pat) s
  else match s with
       | EmptyString => EmptyString
       | String c s' => String c (replaceFirst pat rep s')
       end.

(** [arr.join(sep)]. *)
Fixpoint join (sep : string) (arr : list string) : string :=
  match arr with
  | [] => EmptyString
  | [x] => x
  | x :: rest => x ++ sep ++ join sep rest
  end.

Definition dquote : string := String "034"%char EmptyString.
Definition squote : string := String "039"%char EmptyString.
Definition backslash : string := String "092"%char EmptyString.

Definition hexDigit (n : nat) : ascii :=
  if (n <? 10)%nat then ascii_of_nat (48 + n) else ascii_of_nat (87 + n).

(** One code unit of [JSON.stringify] applied to a string (QuoteJSONString). *)
Definition jsonEscape (c : ascii) : string :=
  let n := nat_of_ascii c in
  if (n =? 8)%nat then backslash ++ "b"
  else if (n =? 9)%nat then backslash ++ "t"
  else if (n =? 10)%nat then backslash ++ "n"
  else if (n =? 12)%nat then backslash ++ "f"
  else if (n =? 13)%nat then backslash ++ "r"
  else if (n =? 34)%nat then backslash ++ dquote
  else if (n =? 92)%nat then backslash ++ backslash
  else if (n <? 32)%nat then
    backslash ++ "u00" ++ String (hexDigit (n / 16)) (String (hexDigit (n mod 16)) EmptyString)
  else String c EmptyString.

Fixpoint jsonEscapeAll (s : string) : string :=
  match s with
  | EmptyString => EmptyString
  | String c s' => jsonEscape c ++ jsonEscapeAll s'
  end.

(** [JSON.stringify(s)] for a string [s]. *)
Definition JSON_stringify (s : string) : string :=
  dquote ++ jsonEscapeAll s ++ dquote.

(** ** rewrite-imports.ts *)

(** [spliceString]: [withSlice || ''] is [withSlice] for every string. *)
Definition spliceString (source withSlice : string) (start end_ : nat) : string :=
  sliceTo start source ++ withSlice ++ sliceFrom end_ source.

(** [spec.match(WEBPACK_MAGIC_COMMENT_REGEX)] with
    [WEBPACK_MAGIC_COMMENT_REGEX = /\/\*[\s\S]*?\*\//g]: every block
    comment, leftmost first, none overlapping.  The fuel bounds the number
    of start positions tried. *)
Fixpoint commentBlocks (fuel : nat) (s : string) : list string :=
  match fuel with
  | 0 => []
  | S fuel' =>
      match s with
      | EmptyString => []
      | String _ s' =>
          if prefix "/*" s then
            match indexOf "*/" (sliceFrom 2 s) with
            | Some k => sliceTo (k + 4) s :: commentBlocks fuel' (sliceFrom (k + 4) s)
            | None => commentBlocks fuel' s'
            end
          else commentBlocks fuel' s'
      end
  end.

(** [String.prototype.match] with a global regular expression answers
    [null] when nothing matches. *)
Definition matchMagicComments (spec : string) : option (list string) :=
  match commentBlocks (String.length spec) spec with
  | [] => None
  | l => Some l
  end.

(** A record of es-module-lexer: [s], [e] delimit the specifier, [d] is -1
    for a static import, -2 for [import.meta] and the offset of the
    [import] keyword for a dynamic import. *)
Record ImportSpecifier : Type := mkImport { imp_s : nat; imp_e : nat; imp_d : Z }.

(** JavaScript truthiness of a [string | null]. *)
Definition truthy (v : option string) : bool :=
  match v with
  | Some (String _ _) => true
  | _ => false
  end.

(** [v || ''] for a [string | null]. *)
Definition orEmpty (v : option string) : string :=
  match v with
  | Some v' => v'
  | None => EmptyString
  end.

(** The array answered by [RegExp.prototype.exec]: the offset of the match
    and the matched texts, the whole match first, then the capture groups. *)
Record RegExpExecArray : Type := mkMatch { index : nat; groups : list string }.

Definition group (k : nat) (m : RegExpExecArray) : string := nth k (groups m) EmptyString.

(** A global regular expression, seen through [exec]: the subject string
    and [lastIndex] give the next match at or after [lastIndex], or [null].
    After a match [lastIndex] is the end of the match. *)
Definition RegExpExec : Type := string -> nat -> option RegExpExecArray.

Definition lastIndexAfter (m : RegExpExecArray) : nat := index m + String.length (group 0 m).

Module CssRegex.

Definition isQuote (c : ascii) : bool :=
  (nat_of_ascii c =? 34)%nat || (nat_of_ascii c =? 39)%nat.

(** Number of leading blanks: the greedy [\s*]. *)
Fixpoint countSpaces (s : string) : nat :=
  match s with
  | String c s' => if isSpace c then S (countSpaces s') else 0
  | EmptyString => 0
  end.

(** The lazy group followed by a quote and a semicolon: the least [k]
    such that a quote followed by a semicolon stands at offset [k]. *)
Fixpoint findClose (s : string) : option nat :=
  match s with
  | EmptyString => None
  | String c s' =>
      if isQuote c && prefix ";" s' then Some 0
      else option_map S (findClose s')
  end.

(** A match of the whole expression anchored at the start of [t]: the
    length of the match and the captured specifier. *)
Definition matchHere (t : string) : option (nat * string) :=
  if prefix "@import" t then
    let w := countSpaces (sliceFrom 7 t) in
    match sliceFrom (7 + w) t with
    | String q body =>
        if isQuote q then
          match findClose body with
          | Some k => Some (7 + w + 1 + k + 2, sliceTo k body)
          | None => None
          end
        else None
    | EmptyString => None
    end
  else None.

(** The leftmost start position, from offset [i] on, where the
    expression matches. *)
Fixpoint search (t : string) (i : nat) : option RegExpExecArray :=
  match matchHere t with
  | Some (len, spec) => Some (mkMatch i [sliceTo len t; spec])
  | None =>
      match t with
      | EmptyString => None
      | String _ t' => search t' (S i)
      end
  end.

(** Modelled from the spec: the constant [CSS_REGEX] of [./util], which
    is imported by rewrite-imports.ts and is not part of the sources at
    hand.  The specification has the stylesheet scanner "locate every
    [@import] rule and capture the quoted URL argument", whatever the
    quote style or the spacing of the rule; the rewriter re-emits a rule
    that ends in a semicolon.  This is the global, dot-matches-all
    expression [/@import\s*Q(.*?)Q;/gs], where [Q] stands for the class
    of the single and the double quote. *)
Definition CSS_REGEX : RegExpExec :=
  fun s lastIndex =>
    if (String.length s <? lastIndex)%nat then None
    else search (sliceFrom lastIndex s) lastIndex.

End CssRegex.

Section RewriteImports.

(** [parse] of es-module-lexer, which answers the import records of a
    script or throws its own error, here the message, on a syntax error. *)
Variable parse : string -> string + list ImportSpecifier.

(** [matchDynamicImportValue] of [./scan-imports]: the literal specifier
    of a dynamic import argument, or [null]. *)
Variable matchDynamicImportValue : string -> option string.

(** [HTML_JS_REGEX] and [HTML_STYLE_REGEX] of [./util]: group 1 is the
    opening tag, group 2 the body of the element. *)
Variable HTML_JS_REGEX : RegExpExec.
Variable HTML_STYLE_REGEX : RegExpExec.

Definition isDynamic (imp : ImportSpecifier) : bool := (-1 <? imp_d imp)%Z.

Definition scanCodeImportsExports (code : string) : outcome (list ImportSpecifier) :=
  await imports <- match parse code with
                   | inl message => Throw (ExternalError message)
                   | inr imports => Return imports
                   end ;;
  Return (filter (fun imp =>
                    if (imp_d imp =? -2)%Z then false
                    else if isDynamic imp then
                           truthy (matchDynamicImportValue (js_substring (imp_s imp) (imp_e imp) code))
                         else true) imports).

(** The text spliced in for one record: the body of the [for] loop of
    [transformEsmImports] up to the call of [spliceString]. *)
Definition rewrittenImportOf (replaceImport : string -> string)
           (rewrittenCode : string) (imp : ImportSpecifier) : string :=
  let spec := js_substring (imp_s imp) (imp_e imp) rewrittenCode in
  if isDynamic imp then
    let webpackMagicCommentMatches := matchMagicComments spec in
    let spec := orEmpty (matchDynamicImportValue spec) in
    let rewrittenImport := replaceImport spec in
    match webpackMagicCommentMatches with
    | Some comments => join " " comments ++ " " ++ JSON_stringify rewrittenImport
    | None => JSON_stringify rewrittenImport
    end
  else replaceImport spec.

Definition esmStep (replaceImport : string -> string)
           (rewrittenCode : string) (imp : ImportSpecifier) : string :=
  spliceString rewrittenCode (rewrittenImportOf replaceImport rewrittenCode imp)
               (imp_s imp) (imp_e imp).

Definition transformEsmImports (_code : string) (replaceImport : string -> string)
  : outcome string :=
  await imports <- scanCodeImportsExports _code ;;
  Return (fold_left (esmStep replaceImport) (rev imports) _code).

(** The rule emitted for one match of [CSS_REGEX]. *)
Definition cssRule (replaceImport : string -> string) (spec : string) : string :=
  "@import " ++ dquote ++ replaceFirst ".proxy.js" "" (replaceImport spec) ++ dquote ++ ";".

(** The [while] loop of [transformCssImports]; [lastIndex] is the state of
    the regular expression object. *)
Fixpoint cssLoop (fuel : nat) (replaceImport : string -> string)
         (rewrittenCode : string) (lastIndex : nat) : outcome string :=
  match fuel with
  | 0 => OutOfFuel
  | S fuel' =>
      match CssRegex.CSS_REGEX rewrittenCode lastIndex with
      | None => Return rewrittenCode
      | Some m =>
          let fullMatch := group 0 m in
          let spec := group 1 m in
          cssLoop fuel' replaceImport
                  (spliceString rewrittenCode (cssRule replaceImport spec)
                                (index m) (index m + String.length fullMatch))
                  (lastIndexAfter m)
      end
  end.

Definition transformCssImports (fuel : nat) (code : string)
           (replaceImport : string -> string) : outcome string :=
  cssLoop fuel replaceImport code 0.

(** The two [while] loops of [transformHtmlImports]. *)
Fixpoint htmlLoop (regex : RegExpExec) (transform : string -> outcome string)
         (fuel : nat) (rewrittenCode : string) (lastIndex : nat) : outcome string :=
  match fuel with
  | 0 => OutOfFuel
  | S fuel' =>
      match regex rewrittenCode lastIndex with
      | None => Return rewrittenCode
      | Some m =>
          let tag := group 1 m in
          let body := group 2 m in
          if trimIsTruthy body then
            await transformed <- transform body ;;
            htmlLoop regex transform fuel'
                     (spliceString rewrittenCode transformed
                                   (index m + String.length tag)
                                   (index m + String.length tag + String.length body))
                     (lastIndexAfter m)
          else htmlLoop regex transform fuel' rewrittenCode (lastIndexAfter m)
      end
  end.

Definition transformHtmlImports (fuel : nat) (code : string)
           (replaceImport : string -> string) : outcome string :=
  await rewrittenCode <-
    htmlLoop HTML_JS_REGEX (fun scriptCode => transformEsmImports scriptCode replaceImport)
             fuel code 0 ;;
  htmlLoop HTML_STYLE_REGEX (fun styleCode => transformCssImports fuel styleCode replaceImport)
           fuel rewrittenCode 0.

(** [SnowpackSourceFile<string>], the two fields the rewriter reads. *)
Record SnowpackSourceFile : Type := mkSource { baseExt : string; contents : string }.

Definition transformFileImports (fuel : nat) (file : SnowpackSourceFile)
           (replaceImport : string -> string) : outcome string :=
  if String.eqb (baseExt file) ".js" then transformEsmImports (contents file) replaceImport
  else if String.eqb (baseExt file) ".html" then transformHtmlImports fuel (contents file) replaceImport
  else if String.eqb (baseExt file) ".css" then transformCssImports fuel (contents file) replaceImport
  else Throw (IncompatibleFiletype (baseExt file)).

End RewriteImports.

(** ** The build command *)

(** *** removeEmptyFolders *)

Set Warnings "-register-all".

(** What [fs.stat] and [fs.readdir] see at a path: a file, or a directory
    with its named entries. *)
Inductive node : Type :=
| File (data : string)
| Dir (entries : list (string * node)).

(** [removeEmptyFolders(directoryLoc)] on the node found at [directoryLoc].
    The answer pairs the promised boolean with what is left at the path:
    [None] once [fs.rmdir] has removed it.  The calls that [Promise.all]
    runs side by side work on disjoint subtrees, so they are taken in the
    order of [files]; [afterFiles] is what the second [fs.readdir] finds. *)
Fixpoint removeEmptyFolders (n : node) : bool * option node :=
  match n with
  | File _ => (false, Some n)
  | Dir [] => (false, None)
  | Dir files =>
      let afterFiles :=
        flat_map (fun entry =>
                    match snd (removeEmptyFolders (snd entry)) with
                    | Some child => [(fst entry, child)]
                    | None => []
                    end) files in
      match afterFiles with
      | [] => (true, None)
      | _ :: _ => (true, Some (Dir afterFiles))
      end
  end.

(** The entries left in a directory once each of them has been cleaned. *)
Definition cleanEntries (files : list (string * node)) : list (string * node) :=
  flat_map (fun entry =>
              match snd (removeEmptyFolders (snd entry)) with
              | Some child => [(fst entry, child)]
              | None => []
              end) files.

(** Some regular file lies at or below the node. *)
Fixpoint holdsFile (n : node) : bool :=
  match n with
  | File _ => true
  | Dir files => existsb (fun entry => holdsFile (snd entry)) files
  end.

(** Some directory at or below the node has no entry. *)
Fixpoint hasEmptyDir (n : node) : bool :=
  match n with
  | File _ => false
  | Dir [] => true
  | Dir files => existsb (fun entry => hasEmptyDir (snd entry)) files
  end.

(** *** Data of the crawler *)

(** [ImportMap] of esinstall: the [imports] table. *)
Definition ImportMap : Type := list (string * string).

Record LoadUrlOptions : Type := mkLoadOptions {
  isSSR : bool;
  isHMR : bool;
  isResolve : bool;
  importMap : option ImportMap
}.

(** The two fields of the answer of [devServer.loadUrl] that the build reads. *)
Record LoadResult : Type := mkLoadResult {
  result_contents : string;
  result_imports : list string
}.

(** [config.optimize], with the two options the build reads. *)
Record OptimizeOptions : Type := mkOptimize {
  bundle : option bool;
  treeshake : option bool
}.

Record SnowpackConfig : Type := mkConfig {
  buildOptions_out : string;
  buildOptions_watch : bool;
  buildOptions_clean : bool;
  buildOptions_ssr : bool;
  buildOptions_metaUrlPath : string;
  devOptions_hmr : bool;
  optimize : option OptimizeOptions;
  (** [config.plugins.some((p) => p.optimize)] *)
  plugins_some_optimize : bool
}.

(** The callback slot [onFileChangeCallback]: the initial [() => {}] or a
    callback registered through [onFileChange]. *)
Inductive OnFileChangeCallback : Type :=
| noopCallback
| userCallback (id : nat).

(** Calls that leave the build function, in the order they are made.
    [EvFlush] is a ghost event: it records each call of [flushFileQueue]
    with its arguments and the queue it finds. *)
Inductive event : Type :=
| EvDeleteFromBuildSafe (dir : string)
| EvMkdirpSync (dir : string)
| EvStartServer
| EvFlush (ignorePkg : bool) (loadOptions : LoadUrlOptions) (queue : list string)
| EvLoadUrl (fileUrl : string) (loadOptions : LoadUrlOptions)
| EvMkdirp (dir : string)
| EvWriteFile (path : string) (data : string)
| EvInstallPackages (installTargets : list string) (installDest : string) (treeshake : bool)
| EvRunBuiltInOptimize
| EvRunPipelineOptimizeStep (dir : string)
| EvRemoveEmptyFolders (dir : string)
| EvRunPipelineCleanupStep
| EvShutdown
| EvOnFileChangeCallback (callback : OnFileChangeCallback) (filePath : string).

(** A JavaScript [Set<string>] is the list of its elements in insertion
    order, without repetition; a JavaScript array is the list of its
    elements in index order. *)
Definition setHas (x : string) (s : list string) : bool := existsb (String.eqb x) s.

Definition setAdd (x : string) (s : list string) : list string :=
  if setHas x s then s else s ++ [x].

(** [new Set(arr)]. *)
Definition setOfArray (arr : list string) : list string :=
  fold_left (fun s x => setAdd x s) arr [].

(** The variables that [flushFileQueue] and the change handler close over. *)
Record BuildSession : Type := mkSession {
  allFileUrlsUnique : list string;
  allFileUrlsToProcess : list string;
  allBareModuleSpecifiers : list string;
  optimizedImportMap : option ImportMap;
  onFileChangeCallback : OnFileChangeCallback;
  trace : list event
}.

Definition withUnique (u : list string) (st : BuildSession) : BuildSession :=
  mkSession u (allFileUrlsToProcess st) (allBareModuleSpecifiers st)
            (optimizedImportMap st) (onFileChangeCallback st) (trace st).

Definition withToProcess (q : list string) (st : BuildSession) : BuildSession :=
  mkSession (allFileUrlsUnique st) q (allBareModuleSpecifiers st)
            (optimizedImportMap st) (onFileChangeCallback st) (trace st).

Definition withBare (b : list string) (st : BuildSession) : BuildSession :=
  mkSession (allFileUrlsUnique st) (allFileUrlsToProcess st) b
            (optimizedImportMap st) (onFileChangeCallback st) (trace st).

Definition withImportMap (m : option ImportMap) (st : BuildSession) : BuildSession :=
  mkSession (allFileUrlsUnique st) (allFileUrlsToProcess st) (allBareModuleSpecifiers st)
            m (onFileChangeCallback st) (trace st).

Definition withCallback (c : OnFileChangeCallback) (st : BuildSession) : BuildSession :=
  mkSession (allFileUrlsUnique st) (allFileUrlsToProcess st) (allBareModuleSpecifiers st)
            (optimizedImportMap st) c (trace st).

Definition emit (ev : event) (st : BuildSession) : BuildSession :=
  mkSession (allFileUrlsUnique st) (allFileUrlsToProcess st) (allBareModuleSpecifiers st)
            (optimizedImportMap st) (onFileChangeCallback st) (trace st ++ [ev]).

(** The collaborators of the build: the dev server, the mount scan, the
    package installer and the path functions of Node. *)
Record Collaborators : Type := mkCollaborators {
  (** [devServer.loadUrl(fileUrl, loadOptions)], which answers or rejects *)
  loadUrl : string -> LoadUrlOptions -> error + LoadResult;
  (** the files that [glob.sync] finds under the mounted directories *)
  mountedFiles : list string;
  (** [getUrlsForFile(file, config)], which may answer [undefined] *)
  getUrlsForFile : string -> option (list string);
  (** [installPackages] behind [installOptimizedDependencies] *)
  installPackages : list string -> string -> bool -> error + ImportMap;
  path_join : string -> string -> string;
  path_dirname : string -> string;
  path_posix_join : string -> string -> string;
  (** [mkdirp(dir)] and [fs.writeFile(path, data)], which resolve or reject *)
  fs_mkdirp : string -> error + unit;
  fs_writeFile : string -> string -> error + unit
}.

Section Build.

Variable env : Collaborators.
Variable config : SnowpackConfig.

Definition getIsHmrEnabled : bool :=
  buildOptions_watch config && devOptions_hmr config.

Definition buildDirectoryLoc : string := buildOptions_out config.

Definition pkgUrlPrefix : string :=
  path_posix_join env (buildOptions_metaUrlPath config) "pkg/".

(** Lift the answer of a collaborator that answers or rejects. *)
Definition settle {A : Type} (r : error + A) : outcome A :=
  match r with
  | inl e => Throw e
  | inr a => Return a
  end.

(** The body of [for (const importedUrl of result.imports)]. *)
Definition enqueueImport (st : BuildSession) (importedUrl : string) : BuildSession :=
  if negb (startsWith "/" importedUrl) then
    withBare (setAdd importedUrl (allBareModuleSpecifiers st)) st
  else if negb (setHas importedUrl (allFileUrlsUnique st)) then
    withToProcess (allFileUrlsToProcess st ++ [importedUrl])
                  (withUnique (setAdd importedUrl (allFileUrlsUnique st)) st)
  else st.

(** One turn of the [while] loop of [flushFileQueue], the queue not being
    empty; [continue] ends the turn at once. *)
Definition flushBody (ignorePkg : bool) (loadOptions : LoadUrlOptions)
           (st : BuildSession) : outcome BuildSession :=
  let fileUrl := last (allFileUrlsToProcess st) EmptyString in
  let st := withToProcess (removelast (allFileUrlsToProcess st)) st in
  if ignorePkg && startsWith pkgUrlPrefix fileUrl then Return st
  else
    await result <- settle (loadUrl env fileUrl loadOptions) ;;
    let st := emit (EvLoadUrl fileUrl loadOptions) st in
    let dest := path_join env buildDirectoryLoc fileUrl in
    await _ <- settle (fs_mkdirp env (path_dirname env dest)) ;;
    let st := emit (EvMkdirp (path_dirname env dest)) st in
    await _ <- settle (fs_writeFile env dest (result_contents result)) ;;
    let st := emit (EvWriteFile dest (result_contents result)) st in
    Return (fold_left enqueueImport (result_imports result) st).

(** The [while] loop of [flushFileQueue]. *)
Fixpoint flushLoop (fuel : nat) (ignorePkg : bool) (loadOptions : LoadUrlOptions)
         (st : BuildSession) : outcome BuildSession :=
  match fuel with
  | 0 => OutOfFuel
  | S fuel' =>
      match allFileUrlsToProcess st with
      | [] => Return st
      | _ :: _ =>
          await st <- flushBody ignorePkg loadOptions st ;;
          flushLoop fuel' ignorePkg loadOptions st
      end
  end.

(** The states that the loop goes through: [crawls st st'] when some
    number of turns, none of which throws, leads from [st] to [st']. *)
Inductive crawls (ignorePkg : bool) (loadOptions : LoadUrlOptions)
  : BuildSession -> BuildSession -> Prop :=
| crawls_here : forall st, crawls ignorePkg loadOptions st st
| crawls_turn : forall st st' st'',
    allFileUrlsToProcess st <> [] ->
    flushBody ignorePkg loadOptions st = Return st' ->
    crawls ignorePkg loadOptions st' st'' ->
    crawls ignorePkg loadOptions st st''.

Definition flushFileQueue (fuel : nat) (ignorePkg : bool) (loadOptions : LoadUrlOptions)
           (st : BuildSession) : outcome BuildSession :=
  flushLoop fuel ignorePkg loadOptions
            (emit (EvFlush ignorePkg loadOptions (allFileUrlsToProcess st)) st).

(** [installOptimizedDependencies]; [treeshake] as computed for
    [baseInstallOptions]. *)
Definition installTreeshake : bool :=
  if buildOptions_watch config then false
  else match optimize config with
       | Some o => match treeshake o with Some false => false | _ => true end
       | None => true
       end.

Definition installOptimizedDependencies (installTargets : list string)
           (installDest : string) (st : BuildSession) : outcome (ImportMap * BuildSession) :=
  await importMap <- settle (installPackages env installTargets installDest installTreeshake) ;;
  Return (importMap, emit (EvInstallPackages installTargets installDest installTreeshake) st).

(** The mount scan: [allFileUrls], or the [TypeError] of spreading
    [undefined]. *)
Fixpoint mountScan (files : list string) : outcome (list string) :=
  match files with
  | [] => Return []
  | f :: rest =>
      match getUrlsForFile env f with
      | None => Throw (ExternalError "TypeError")
      | Some fileUrls =>
          await more <- mountScan rest ;;
          Return (fileUrls ++ more)
      end
  end.

(** What [build] answers: the watch-mode handle, or the handle of a
    finished build whose two methods throw. *)
Inductive SnowpackBuildResult : Type :=
| watchHandle
| finishedHandle.

Definition pass1Options : LoadUrlOptions :=
  mkLoadOptions (buildOptions_ssr config) getIsHmrEnabled false None.

Definition pass2Options (optimizedImportMap : option ImportMap) : LoadUrlOptions :=
  mkLoadOptions (buildOptions_ssr config) getIsHmrEnabled true optimizedImportMap.

(** [build], up to and with the first call of [flushFileQueue]. *)
Definition buildPass1 (fuel : nat) : outcome BuildSession :=
  let st := mkSession [] [] [] None noopCallback [] in
  let st := if buildOptions_clean config
            then emit (EvDeleteFromBuildSafe buildDirectoryLoc) st else st in
  let st := emit (EvMkdirpSync buildDirectoryLoc) st in
  let st := emit EvStartServer st in
  await allFileUrls <- mountScan (mountedFiles env) ;;
  let st := withUnique (setOfArray allFileUrls) st in
  let st := withToProcess (allFileUrlsUnique st) st in
  flushFileQueue fuel false pass1Options st.

(** The package step of [build]. *)
Definition buildPackages (st : BuildSession) : outcome BuildSession :=
  if negb (buildOptions_watch config) then
    let installDest :=
      path_join env (path_join env buildDirectoryLoc (buildOptions_metaUrlPath config)) "pkg" in
    await installResult <-
      installOptimizedDependencies (allBareModuleSpecifiers st) installDest st ;;
    Return (withImportMap (Some (fst installResult)) (snd installResult))
  else Return st.

(** The second call of [flushFileQueue] in [build]. *)
Definition buildPass2 (fuel : nat) (st : BuildSession) : outcome BuildSession :=
  let st := withToProcess (allFileUrlsUnique st) st in
  flushFileQueue fuel (negb (buildOptions_watch config))
                 (pass2Options (optimizedImportMap st)) st.

(** The end of a build that does not watch. *)
Definition buildFinish (st : BuildSession) : BuildSession :=
  let st :=
    if (match optimize config with Some _ => true | None => false end)
       || plugins_some_optimize config
    then emit (EvRunPipelineOptimizeStep buildDirectoryLoc) (emit EvRunBuiltInOptimize st)
    else st in
  let st := emit (EvRemoveEmptyFolders buildDirectoryLoc) st in
  let st := emit EvRunPipelineCleanupStep st in
  emit EvShutdown st.

Definition build (fuel : nat) : outcome (SnowpackBuildResult * BuildSession) :=
  await st <- buildPass1 fuel ;;
  await st <- buildPackages st ;;
  await st <- buildPass2 fuel st ;;
  if buildOptions_watch config then Return (watchHandle, st)
  else Return (finishedHandle, buildFinish st).

(** [onFileChange] of the watch-mode handle: the registration of the
    callback. *)
Definition registerOnFileChange (callback : OnFileChangeCallback) (st : BuildSession)
  : BuildSession := withCallback callback st.

(** The handler that [build] gives to [devServer.onFileChange]. *)
Definition fileChangeHandler (fuel : nat) (filePath : string) (st : BuildSession)
  : outcome BuildSession :=
  match getUrlsForFile env filePath with
  | None => Throw (ExternalError "TypeError")
  | Some fileUrls =>
      let st := withToProcess (allFileUrlsToProcess st ++ fileUrls) st in
      await st <- flushFileQueue fuel true (pass2Options (optimizedImportMap st)) st ;;
      Return (emit (EvOnFileChangeCallback (onFileChangeCallback st) filePath) st)
  end.

(** How [command] ends: [process.exit(1)], a promise that never
    resolves, or a plain return. *)
Inductive CommandEnd : Type :=
| exitProcess (code : nat) (logged : error)
| neverResolves
| returns.

Definition command (fuel : nat) : outcome CommandEnd :=
  match build fuel with
  | Throw err => Return (exitProcess 1 err)
  | OutOfFuel => OutOfFuel
  | Return _ =>
      if buildOptions_watch config then Return neverResolves else Return returns
  end.

End Build.

(** ** Vocabulary of the statements *)

Local Open Scope string_scope.



(** The replacement function that changes nothing. *)
Definition identity (specifier : string) : string := specifier.

(** Every rule that [CSS_REGEX] can find in [code], from whatever
    [lastIndex], already reads as the rule the rewriter emits for it under
    the identity replacement. *)
Definition allRulesCanonical (code : string) : bool :=
  forallb (fun lastIndex =>
             match CssRegex.CSS_REGEX code lastIndex with
             | None => true
             | Some m => String.eqb (group 0 m) (cssRule identity (group 1 m))
             end)
          (seq 0 (S (String.length code))).

(** The test of the filter of [scanCodeImportsExports]: the record is
    kept. *)
Definition scanKeeps (matchDynamicImportValue : string -> option string)
           (code : string) (imp : ImportSpecifier) : bool :=
  if (imp_d imp =? -2)%Z then false
  else if isDynamic imp then
         truthy (matchDynamicImportValue (js_substring (imp_s imp) (imp_e imp) code))
       else true.

(** The lexer answers for [code], and every record that the scan keeps
    has a well-formed span and, when it is a dynamic import, an argument
    that already reads as the rewriter emits it under the identity
    replacement.  A static import is such a record whatever its
    specifier; a dynamic import whose argument is computed is not kept
    by the scan. *)
Definition spansInEmittedForm (parse : string -> string + list ImportSpecifier)
           (matchDynamicImportValue : string -> option string) (code : string) : Prop :=
  exists imports,
    parse code = inr imports /\
    forall imp,
      In imp imports -> scanKeeps matchDynamicImportValue code imp = true ->
      imp_s imp <= imp_e imp
      /\ (isDynamic imp = true ->
          rewrittenImportOf matchDynamicImportValue identity code imp
          = js_substring (imp_s imp) (imp_e imp) code).

(** What [exec] promises for an expression of the shape
    [(tag)(body)closing]: the match lies at or after [lastIndex], is not
    empty, lies within the subject, and its second group is the text that
    follows its first group. *)
Definition wellFormedExec (regex : RegExpExec) : Prop :=
  forall s lastIndex m,
    regex s lastIndex = Some m ->
    lastIndex <= index m /\
    0 < String.length (group 0 m) /\
    index m + String.length (group 0 m) <= String.length s /\
    sliceFrom (index m + String.length (group 1 m)) s
    = group 2 m ++ sliceFrom (index m + String.length (group 1 m) + String.length (group 2 m)) s.

(** ** Sample collaborators, for the examples *)

(** A lexer that knows one script. *)
Definition sampleParse (script : string) (records : list ImportSpecifier)
  : string -> string + list ImportSpecifier :=
  fun code => if String.eqb code script then inr records else inl "parse error".

(** A dynamic import argument whose literal is taken between its last two
    quotes by the caller: here the answer for one argument. *)
Definition sampleDynamicValue (argument literal : string) : string -> option string :=
  fun span => if String.eqb span argument then Some literal else None.

(** A script with a static import, a dynamic import of a double-quoted
    literal and a dynamic import of a computed specifier, and the records
    of the lexer for it. *)
Definition sampleScript : string :=
  "import './a.js';import(" ++ dquote ++ "./b.js" ++ dquote ++ ");import(foo)".

Definition sampleScriptRecords : list ImportSpecifier :=
  [mkImport 8 14 (-1); mkImport 23 31 16; mkImport 40 43 33].

(** An expression that finds nothing. *)
Definition noMatch : RegExpExec := fun _ _ => None.

(** An expression that knows one document and the one element in it. *)
Definition sampleExec (document : string) (m : RegExpExecArray) : RegExpExec :=
  fun s lastIndex =>
    if String.eqb s document && (lastIndex <=? index m)%nat then Some m else None.

(** A document with one module script and one style element, and what the
    two expressions of the markup rewriter find in it. *)
Definition sampleDocument : string :=
  "<script type=" ++ dquote ++ "module" ++ dquote ++ ">import './a.js';</script>"
  ++ "<style>@import " ++ dquote ++ "a.css" ++ dquote ++ ";</style>".

Definition sampleScriptMatch : RegExpExecArray :=
  mkMatch 0 ["<script type=" ++ dquote ++ "module" ++ dquote ++ ">import './a.js';</script>";
             "<script type=" ++ dquote ++ "module" ++ dquote ++ ">";
             "import './a.js';"].

Definition sampleStyleMatch : RegExpExecArray :=
  mkMatch 47 ["<style>@import " ++ dquote ++ "a.css" ++ dquote ++ ";</style>";
              "<style>";
              "@import " ++ dquote ++ "a.css" ++ dquote ++ ";"].

Local Open Scope list_scope.

(** The URLs given to [devServer.loadUrl], in the order of the calls. *)
Fixpoint loadedUrls (tr : list event) : list string :=
  match tr with
  | [] => []
  | EvLoadUrl fileUrl _ :: rest => fileUrl :: loadedUrls rest
  | _ :: rest => loadedUrls rest
  end.


Definition isInstall (ev : event) : bool :=
  match ev with EvInstallPackages _ _ _ => true | _ => false end.


(** The events of one turn of the crawler: a load and the two writes. *)
Definition isCrawlEvent (ev : event) : bool :=
  match ev with
  | EvLoadUrl _ _ | EvMkdirp _ | EvWriteFile _ _ => true
  | _ => false
  end.



(** A site of two files: [/index.html] imports [/a.js], which imports the
    package [lodash]; [load] is the dev server. *)
Definition sampleLoad : string -> LoadUrlOptions -> error + LoadResult :=
  fun fileUrl _ =>
    if String.eqb fileUrl "/index.html" then inr (mkLoadResult "<html>" ["/a.js"])
    else if String.eqb fileUrl "/a.js" then inr (mkLoadResult "import" ["lodash"; "/a.js"])
    else if String.eqb fileUrl "/new.js" then inr (mkLoadResult "new" [])
    else inl (IncompatibleFiletype ".md").

Definition sampleCollaborators (load : string -> LoadUrlOptions -> error + LoadResult)
           (files : list string) : Collaborators :=
  mkCollaborators
    load
    files
    (fun file => if String.eqb file "src/index.html" then Some ["/index.html"]
                 else if String.eqb file "src/new.js" then Some ["/new.js"]
                 else if String.eqb file "src/notes.md" then Some ["/notes.md"]
                 else None)
    (fun _ _ _ => inr [("lodash", "/_snowpack/pkg/lodash.js")])
    (fun a b => (a ++ b)%string)
    (fun p => p)
    (fun a b => (a ++ "/" ++ b)%string)
    (fun _ => inr tt)
    (fun _ _ => inr tt).

Definition sampleConfig (watch : bool) : SnowpackConfig :=
  mkConfig "build" watch false false "/_snowpack" false None false.


(** A session about to crawl [/index.html]. *)
Definition sampleSession : BuildSession :=
  mkSession ["/index.html"] ["/index.html"] [] None noopCallback [].

(** The events of [build] before the first crawl and after the second. *)
Definition setupEvents (config : SnowpackConfig) : list event :=
  (if buildOptions_clean config then [EvDeleteFromBuildSafe (buildDirectoryLoc config)] else [])
  ++ [EvMkdirpSync (buildDirectoryLoc config); EvStartServer].

Definition finishEvents (config : SnowpackConfig) : list event :=
  if buildOptions_watch config then []
  else (if (match optimize config with Some _ => true | None => false end)
           || plugins_some_optimize config
        then [EvRunBuiltInOptimize; EvRunPipelineOptimizeStep (buildDirectoryLoc config)]
        else [])
       ++ [EvRemoveEmptyFolders (buildDirectoryLoc config); EvRunPipelineCleanupStep; EvShutdown].

(** [installDest] of [build]. *)
Definition installDestOf (env : Collaborators) (config : SnowpackConfig) : string :=
  path_join env (path_join env (buildDirectoryLoc config) (buildOptions_metaUrlPath config)) "pkg".

(** The sample site once built in watch mode: both files discovered,
    nothing left to process. *)
Definition sampleWatchSession : BuildSession :=
  mkSession ["/index.html"; "/a.js"] [] ["lodash"] None (userCallback 1) [].

(** ** Vocabulary of the further properties *)

Local Open Scope string_scope.

(** The records lie one after the other from [pos] on, each with a
    well-formed span, within a text of length [len]: the spans do not
    overlap and come in the order of the text. *)
Fixpoint wellSpaced (pos : nat) (records : list ImportSpecifier) (len : nat) : Prop :=
  match records with
  | [] => pos <= len
  | imp :: rest =>
      pos <= imp_s imp /\ imp_s imp <= imp_e imp /\ wellSpaced (imp_e imp) rest len
  end.

(** The text from [pos] on, read from left to right, with the span of each
    record replaced by what the rewriter emits for that span of the
    original text. *)
Fixpoint rewriteSpans (matchDynamicImportValue : string -> option string)
         (replaceImport : string -> string) (code : string)
         (pos : nat) (records : list ImportSpecifier) : string :=
  match records with
  | [] => sliceFrom pos code
  | imp :: rest =>
      js_substring pos (imp_s imp) code
      ++ rewrittenImportOf matchDynamicImportValue replaceImport code imp
      ++ rewriteSpans matchDynamicImportValue replaceImport code (imp_e imp) rest
  end.

Local Open Scope list_scope.

Local Open Scope string_scope.

(** A replacement function that answers a rule of its own within its
    text: the specifier, a closing quote and a semicolon, and an
    [@import] opened on the specifier again. *)
Definition growingReplacement (spec : string) : string :=
  spec ++ dquote ++ ";@import " ++ dquote ++ spec.

(** [k] copies of [s]. *)
Fixpoint copies (k : nat) (s : string) : string :=
  match k with
  | 0 => EmptyString
  | S k' => copies k' s ++ s
  end.

Local Open Scope list_scope.

(** The URL is one that a flush with [ignorePkg] passes over. *)
Definition passedOver (env : Collaborators) (config : SnowpackConfig)
           (ignorePkg : bool) (fileUrl : string) : bool :=
  ignorePkg && startsWith (pkgUrlPrefix env config) fileUrl.

(** The calls that one turn of the crawler makes for a URL that the dev
    server answers for. *)
Definition crawlEvents (env : Collaborators) (config : SnowpackConfig)
           (loadOptions : LoadUrlOptions) (fileUrl : string) : list event :=
  match loadUrl env fileUrl loadOptions with
  | inr result =>
      [EvLoadUrl fileUrl loadOptions;
       EvMkdirp (path_dirname env (path_join env (buildDirectoryLoc config) fileUrl));
       EvWriteFile (path_join env (buildDirectoryLoc config) fileUrl) (result_contents result)]
  | inl _ => []
  end.

(** The URLs that can be reached from [roots] through the local imports
    that the dev server answers. *)
Inductive reachable (env : Collaborators) (loadOptions : LoadUrlOptions)
          (roots : list string) : string -> Prop :=
| reachable_root : forall u, In u roots -> reachable env loadOptions roots u
| reachable_import : forall u result v,
    reachable env loadOptions roots u ->
    loadUrl env u loadOptions = inr result ->
    In v (result_imports result) ->
    startsWith "/" v = true ->
    reachable env loadOptions roots v.

(** The regular files at or below a node, each with its path from the
    node and its data. *)
Fixpoint filesUnder (n : node) : list (list string * string) :=
  match n with
  | File data => [([], data)]
  | Dir files =>
      flat_map (fun entry =>
                  map (fun file => (fst entry :: fst file, snd file))
                      (filesUnder (snd entry))) files
  end.




(** The session in which [build] starts its first crawl, [allFileUrls]
    being what the mount scan has found. *)
Definition mountedSession (config : SnowpackConfig) (allFileUrls : list string)
  : BuildSession :=
  let st := mkSession [] [] [] None noopCallback [] in
  let st := if buildOptions_clean config
            then emit (EvDeleteFromBuildSafe (buildDirectoryLoc config)) st else st in
  let st := emit (EvMkdirpSync (buildDirectoryLoc config)) st in
  let st := emit EvStartServer st in
  let st := withUnique (setOfArray allFileUrls) st in
  withToProcess (allFileUrlsUnique st) st.

(** The crawl that [flushFileQueue] starts from [st] comes, after turns
    that return, to a URL that is not passed over and whose load the dev
    server rejects with [e]. *)
Definition crawlMeetsRejection (env : Collaborators) (config : SnowpackConfig)
           (ignorePkg : bool) (loadOptions : LoadUrlOptions) (st : BuildSession)
           (e : error) : Prop :=
  exists st',
    crawls env config ignorePkg loadOptions
           (emit (EvFlush ignorePkg loadOptions (allFileUrlsToProcess st)) st) st' /\
    allFileUrlsToProcess st' <> [] /\
    passedOver env config ignorePkg (last (allFileUrlsToProcess st') EmptyString) = false /\
    loadUrl env (last (allFileUrlsToProcess st') EmptyString) loadOptions = inl e.

(** The sample dev server, which here rejects [/a.js] once imports are to
    be resolved: the transformation of the file fails in the second pass
    only. *)
Definition sampleLoadRejectingWhenResolved : string -> LoadUrlOptions -> error + LoadResult :=
  fun fileUrl loadOptions =>
    if isResolve loadOptions && String.eqb fileUrl "/a.js"
    then inl (IncompatibleFiletype ".js")
    else sampleLoad fileUrl loadOptions.

(** A dev server for a site in which [/new.js] imports [/util.js], which
    imports [/new.js] in turn; the other URLs are those of the sample
    site. *)
Definition sampleCyclicLoad : string -> LoadUrlOptions -> error + LoadResult :=
  fun fileUrl loadOptions =>
    if String.eqb fileUrl "/new.js" then inr (mkLoadResult "new" ["/util.js"])
    else if String.eqb fileUrl "/util.js" then inr (mkLoadResult "util" ["/new.js"])
    else sampleLoad fileUrl loadOptions.

Local Open Scope string_scope.




Local Open Scope list_scope.

(** * Properties *)

(** ** Strings *)

Local Open Scope string_scope.

Lemma append_assoc (a b c : string) : (a ++ b) ++ c = a ++ (b ++ c).
Proof. induction a as [|x a IH]; simpl; [reflexivity | now rewrite IH]. Qed.

Lemma append_empty_r (a : string) : a ++ "" = a.
Proof. induction a as [|x a IH]; simpl; [reflexivity | now rewrite IH]. Qed.

Lemma length_append (a b : string) :
  String.length (a ++ b) = String.length a + String.length b.
Proof. induction a as [|x a IH]; simpl; [reflexivity | now rewrite IH]. Qed.

Lemma sliceTo_sliceFrom (n : nat) (s : string) : sliceTo n s ++ sliceFrom n s = s.
Proof.
  revert s; induction n as [|n IH]; intros [|c s]; simpl; try reflexivity.
  now rewrite IH.
Qed.

Lemma sliceFrom_add (a b : nat) (s : string) :
  sliceFrom (a + b) s = sliceFrom b (sliceFrom a s).
Proof.
  revert s; induction a as [|a IH]; intros s; simpl; [reflexivity|].
  destruct s as [|c s]; [now destruct b | apply IH].
Qed.

Lemma sliceTo_add (a b : nat) (s : string) :
  sliceTo (a + b) s = sliceTo a s ++ sliceTo b (sliceFrom a s).
Proof.
  revert s; induction a as [|a IH]; intros s; simpl; [reflexivity|].
  destruct s as [|c s]; simpl; [now destruct b | now rewrite IH].
Qed.

Lemma sliceFrom_empty (n : nat) : sliceFrom n "" = "".
Proof. now destruct n. Qed.

Lemma sliceTo_append_exact (a b : string) : sliceTo (String.length a) (a ++ b) = a.
Proof. induction a as [|x a IH]; simpl; [now destruct b | now rewrite IH]. Qed.

Lemma sliceFrom_append_exact (a b : string) : sliceFrom (String.length a) (a ++ b) = b.
Proof. induction a as [|x a IH]; simpl; [reflexivity | exact IH]. Qed.

Lemma length_sliceTo (n : nat) (s : string) :
  String.length (sliceTo n s) = Nat.min n (String.length s).
Proof.
  revert s; induction n as [|n IH]; intros [|c s]; simpl; try reflexivity.
  now rewrite IH.
Qed.

Lemma length_sliceFrom (n : nat) (s : string) :
  String.length (sliceFrom n s) = String.length s - n.
Proof.
  revert s; induction n as [|n IH]; intros [|c s]; simpl; try reflexivity.
  apply IH.
Qed.

Lemma prefix_append (p s : string) : prefix p (p ++ s) = true.
Proof.
  induction p as [|x p IH]; simpl; [now destruct s|].
  destruct (ascii_dec x x) as [_|ne]; [exact IH | now elim ne].
Qed.


(** The span of a well-formed record, spliced back unchanged, gives the
    text back. *)
Lemma splice_same_span (code : string) (s e : nat) :
  s <= e -> spliceString code (js_substring s e code) s e = code.
Proof.
  intros Hse. unfold spliceString, js_substring.
  rewrite Nat.max_r, Nat.min_l by lia.
  replace (sliceFrom e code) with (sliceFrom (e - s) (sliceFrom s code))
    by (rewrite <- sliceFrom_add; f_equal; lia).
  now rewrite sliceTo_sliceFrom, sliceTo_sliceFrom.
Qed.





(** ** The stylesheet expression *)

Lemma findClose_bound (s : string) (k : nat) :
  CssRegex.findClose s = Some k -> k + 2 <= String.length s.
Proof.
  revert k; induction s as [|c s IH]; intros k; simpl; [discriminate|].
  destruct (CssRegex.isQuote c && prefix ";" s) eqn:E.
  - intros [= <-]. apply andb_prop in E as [_ E].
    destruct s; simpl in *; [discriminate | lia].
  - destruct (CssRegex.findClose s) as [k'|]; simpl; [|discriminate].
    intros [= <-]. specialize (IH k' eq_refl). lia.
Qed.

Lemma matchHere_bound (t : string) (len : nat) (spec : string) :
  CssRegex.matchHere t = Some (len, spec) -> 10 <= len <= String.length t.
Proof.
  unfold CssRegex.matchHere.
  destruct (prefix "@import" t); [|discriminate].
  set (w := CssRegex.countSpaces (sliceFrom 7 t)).
  destruct (sliceFrom (7 + w) t) as [|q body] eqn:E; [discriminate|].
  destruct (CssRegex.isQuote q); [|discriminate].
  destruct (CssRegex.findClose body) as [k|] eqn:F; [|discriminate].
  intros [= <- _]. apply findClose_bound in F.
  assert (L := length_sliceFrom (7 + w) t). rewrite E in L. simpl in L. lia.
Qed.

Lemma search_spec (t : string) (i : nat) (m : RegExpExecArray) :
  CssRegex.search t i = Some m ->
  exists j len spec,
    index m = i + j /\
    CssRegex.matchHere (sliceFrom j t) = Some (len, spec) /\
    groups m = [sliceTo len (sliceFrom j t); spec].
Proof.
  revert i; induction t as [|c t IH]; intros i.
  - discriminate.
  - cbn [CssRegex.search].
    destruct (CssRegex.matchHere (String c t)) as [[len spec]|] eqn:E.
    + intros [= <-]. exists 0, len, spec. simpl. rewrite E. repeat split; lia.
    + intros H. destruct (IH _ H) as (j & len & spec & Hi & Hm & Hg).
      exists (S j), len, spec. simpl. repeat split; [lia | exact Hm | exact Hg].
Qed.

(** What [exec] promises for [CSS_REGEX]: the match lies at or after
    [lastIndex], it is the text found at its offset, and it is not empty. *)
Lemma CSS_REGEX_spec (s : string) (lastIndex : nat) (m : RegExpExecArray) :
  CssRegex.CSS_REGEX s lastIndex = Some m ->
  lastIndex <= index m /\
  10 <= String.length (group 0 m) /\
  index m + String.length (group 0 m) <= String.length s /\
  sliceFrom (index m) s = group 0 m ++ sliceFrom (index m + String.length (group 0 m)) s.
Proof.
  unfold CssRegex.CSS_REGEX.
  destruct (String.length s <? lastIndex)%nat eqn:E; [discriminate|].
  apply Nat.ltb_ge in E. intros H.
  destruct (search_spec _ _ _ H) as (j & len & spec & Hi & Hm & Hg).
  rewrite <- sliceFrom_add, <- Hi in Hm.
  rewrite <- sliceFrom_add, <- Hi in Hg.
  apply matchHere_bound in Hm. rewrite length_sliceFrom in Hm.
  unfold group. rewrite Hg. simpl nth.
  assert (L : String.length (sliceTo len (sliceFrom (index m) s)) = len)
    by (rewrite length_sliceTo, length_sliceFrom; lia).
  rewrite L. repeat split; try lia.
  rewrite sliceFrom_add. now rewrite sliceTo_sliceFrom.
Qed.

(** Splicing at a match replaces the matched rule and nothing else. *)
Lemma splice_at_match (s : string) (lastIndex : nat) (m : RegExpExecArray) (r : string) :
  CssRegex.CSS_REGEX s lastIndex = Some m ->
  s = sliceTo (index m) s ++ group 0 m ++ sliceFrom (index m + String.length (group 0 m)) s /\
  spliceString s r (index m) (index m + String.length (group 0 m))
  = sliceTo (index m) s ++ r ++ sliceFrom (index m + String.length (group 0 m)) s.
Proof.
  intros H. apply CSS_REGEX_spec in H as (_ & _ & _ & H).
  split; [|reflexivity].
  rewrite <- H. now rewrite sliceTo_sliceFrom.
Qed.

(** ** Dynamic imports *)











(** ** Stylesheets *)

Lemma sliceTo_all (n : nat) (s : string) : String.length s <= n -> sliceTo n s = s.
Proof.
  revert s; induction n as [|n IH]; intros [|c s]; simpl; intros H;
    try reflexivity; try lia.
  now rewrite IH by lia.
Qed.

Lemma sliceTo_append_within (n : nat) (a b : string) :
  n <= String.length a -> sliceTo n (a ++ b) = sliceTo n a.
Proof.
  revert a; induction n as [|n IH]; intros [|c a]; simpl; intros H;
    try reflexivity; try lia.
  now rewrite IH by lia.
Qed.

Lemma sliceTo_sliceTo (n m : nat) (s : string) : n <= m -> sliceTo n (sliceTo m s) = sliceTo n s.
Proof.
  revert m s; induction n as [|n IH]; intros [|m] [|c s] H; simpl; try reflexivity; try lia.
  now rewrite IH by lia.
Qed.

Lemma sliceFrom_append_within (n : nat) (a b : string) :
  n <= String.length a -> sliceFrom n (a ++ b) = sliceFrom n a ++ b.
Proof.
  revert a; induction n as [|n IH]; intros [|c a]; simpl; intros H;
    try reflexivity; try lia.
  now rewrite IH by lia.
Qed.











(** C5.  The example of the specification holds: [@import "x.css";] under
    the replacement [/pkg/x.proxy.js] is emitted as [@import "/pkg/x";].
    But the rewriter deletes the first [.proxy.js] of the replacement, not
    its suffix: under the replacement [/a.proxy.js/b.proxy.js], which ends
    in the proxy suffix, the rule emitted still points at a proxy file. *)
Theorem css_proxy_suffix_first_occurrence :
  transformCssImports 2 ("@import " ++ dquote ++ "x.css" ++ dquote ++ ";")
                      (fun _ => "/pkg/x.proxy.js")
  = Return ("@import " ++ dquote ++ "/pkg/x" ++ dquote ++ ";")
  /\ transformCssImports 2 ("@import " ++ dquote ++ "x.css" ++ dquote ++ ";")
                         (fun _ => "/a.proxy.js/b.proxy.js")
     = Return ("@import " ++ dquote ++ "/a/b.proxy.js" ++ dquote ++ ";").
Proof. split; reflexivity. Qed.

(** ** The identity replacement *)

Section IdentityRewrite.

Variable parse : string -> string + list ImportSpecifier.
Variable matchDynamicImportValue : string -> option string.

Lemma esmStep_identity_emitted (code : string) (imp : ImportSpecifier) :
  imp_s imp <= imp_e imp ->
  (isDynamic imp = true ->
   rewrittenImportOf matchDynamicImportValue identity code imp
   = js_substring (imp_s imp) (imp_e imp) code) ->
  esmStep matchDynamicImportValue identity code imp = code.
Proof.
  intros Hse Hdyn. unfold esmStep.
  replace (rewrittenImportOf matchDynamicImportValue identity code imp)
    with (js_substring (imp_s imp) (imp_e imp) code).
  - apply splice_same_span, Hse.
  - destruct (isDynamic imp) eqn:Hd; [symmetry; now apply Hdyn|].
    unfold rewrittenImportOf. now rewrite Hd.
Qed.

Lemma esm_fold_identity_emitted (l : list ImportSpecifier) (code : string) :
  (forall imp, In imp l ->
               imp_s imp <= imp_e imp
               /\ (isDynamic imp = true ->
                   rewrittenImportOf matchDynamicImportValue identity code imp
                   = js_substring (imp_s imp) (imp_e imp) code)) ->
  fold_left (esmStep matchDynamicImportValue identity) l code = code.
Proof.
  induction l as [|imp l IH]; intros H; simpl; [reflexivity|].
  destruct (H imp (or_introl eq_refl)) as [Hse Hdyn].
  rewrite esmStep_identity_emitted by assumption.
  apply IH. intros imp' Hin. apply H. now right.
Qed.

Lemma transformEsmImports_identity_emitted (code : string) :
  spansInEmittedForm parse matchDynamicImportValue code ->
  transformEsmImports parse matchDynamicImportValue code identity = Return code.
Proof.
  intros (imports & Hp & Hall).
  unfold transformEsmImports, scanCodeImportsExports. rewrite Hp. cbn [bind].
  f_equal. apply esm_fold_identity_emitted.
  intros imp Hin. apply in_rev in Hin. apply filter_In in Hin as [Hin Hkeep].
  apply (Hall imp Hin Hkeep).
Qed.

Lemma allRulesCanonical_spec (code : string) (lastIndex : nat) (m : RegExpExecArray) :
  allRulesCanonical code = true ->
  CssRegex.CSS_REGEX code lastIndex = Some m ->
  group 0 m = cssRule identity (group 1 m).
Proof.
  intros Hall Hm. unfold allRulesCanonical in Hall.
  rewrite forallb_forall in Hall.
  assert (Hle : lastIndex <= String.length code).
  { apply CSS_REGEX_spec in Hm. lia. }
  specialize (Hall lastIndex). rewrite Hm in Hall.
  apply String.eqb_eq, Hall, in_seq. lia.
Qed.

Lemma cssLoop_identity_canonical (code : string) :
  allRulesCanonical code = true ->
  forall fuel lastIndex,
    String.length code - lastIndex < fuel ->
    cssLoop fuel identity code lastIndex = Return code.
Proof.
  intros Hall. induction fuel as [|fuel IH]; intros lastIndex Hfuel; [lia|].
  cbn [cssLoop].
  destruct (CssRegex.CSS_REGEX code lastIndex) as [m|] eqn:Hm; [|reflexivity].
  cbv zeta.
  destruct (splice_at_match code lastIndex m (cssRule identity (group 1 m)) Hm)
    as [Hcode ->].
  rewrite <- (allRulesCanonical_spec _ _ _ Hall Hm), <- Hcode.
  apply IH. apply CSS_REGEX_spec in Hm. unfold lastIndexAfter. lia.
Qed.

Lemma transformCssImports_identity_canonical (code : string) (fuel : nat) :
  allRulesCanonical code = true ->
  String.length code < fuel ->
  transformCssImports fuel code identity = Return code.
Proof.
  intros Hall Hfuel. apply cssLoop_identity_canonical; [exact Hall | lia].
Qed.

(** A loop of [transformHtmlImports] leaves the document as it is when the
    transformation gives back each body it is applied to. *)
Lemma htmlLoop_unchanged (regex : RegExpExec) (transform : string -> outcome string)
      (code : string) :
  wellFormedExec regex ->
  (forall lastIndex m,
      regex code lastIndex = Some m -> trimIsTruthy (group 2 m) = true ->
      transform (group 2 m) = Return (group 2 m)) ->
  forall fuel lastIndex,
    String.length code - lastIndex < fuel ->
    htmlLoop regex transform fuel code lastIndex = Return code.
Proof.
  intros Hwf Hbody. induction fuel as [|fuel IH]; intros lastIndex Hfuel; [lia|].
  cbn [htmlLoop].
  destruct (regex code lastIndex) as [m|] eqn:Hm; [|reflexivity].
  cbv zeta.
  destruct (Hwf _ _ _ Hm) as (Hle & Hpos & Hin & Hloc).
  assert (Hnext : String.length code - lastIndexAfter m < fuel)
    by (unfold lastIndexAfter; lia).
  destruct (trimIsTruthy (group 2 m)) eqn:Ht; [|apply IH, Hnext].
  rewrite (Hbody _ _ Hm Ht). cbn [bind].
  replace (spliceString code (group 2 m) (index m + String.length (group 1 m))
                        (index m + String.length (group 1 m) + String.length (group 2 m)))
    with code; [apply IH, Hnext|].
  unfold spliceString. rewrite <- Hloc. now rewrite sliceTo_sliceFrom.
Qed.

End IdentityRewrite.

Lemma sampleExec_wellFormed (document : string) (m : RegExpExecArray) :
  0 < String.length (group 0 m) ->
  index m + String.length (group 0 m) <= String.length document ->
  sliceFrom (index m + String.length (group 1 m)) document
  = group 2 m
    ++ sliceFrom (index m + String.length (group 1 m) + String.length (group 2 m)) document ->
  wellFormedExec (sampleExec document m).
Proof.
  intros Hpos Hin Hloc s lastIndex m' H. unfold sampleExec in H.
  destruct (String.eqb_spec s document) as [->|]; [|discriminate].
  destruct (Nat.leb_spec lastIndex (index m)) as [Hle|]; [|discriminate].
  injection H as <-. repeat split; assumption.
Qed.

Lemma sampleExec_inv (document : string) (m m' : RegExpExecArray) (s : string) (lastIndex : nat) :
  sampleExec document m s lastIndex = Some m' -> m' = m.
Proof.
  unfold sampleExec. destruct (_ && _); [now intros [= <-] | discriminate].
Qed.

(** C1, amended.  Rewriting with the identity replacement gives the
    contents back, byte for byte, for a [.js] file in which every dynamic
    import that the scan keeps has an argument that already reads as the
    rewriter emits it, whatever its static imports and its dynamic
    imports of computed specifiers; for a [.css] file whose [@import]
    rules all read already as the rewriter emits them; and for a [.html]
    file whose inline scripts and styles are of these two kinds.  (A
    dynamic import is quoted anew and an [@import] rule is written anew,
    so other files can change.) *)
Theorem identity_rewrite_fixpoint
        (parse : string -> string + list ImportSpecifier)
        (matchDynamicImportValue : string -> option string)
        (HTML_JS_REGEX HTML_STYLE_REGEX : RegExpExec)
        (file : SnowpackSourceFile) (fuel : nat) :
  (baseExt file = ".js" ->
   spansInEmittedForm parse matchDynamicImportValue (contents file)) ->
  (baseExt file = ".css" -> allRulesCanonical (contents file) = true) ->
  (baseExt file = ".html" ->
   wellFormedExec HTML_JS_REGEX /\ wellFormedExec HTML_STYLE_REGEX /\
   (forall lastIndex m,
       HTML_JS_REGEX (contents file) lastIndex = Some m ->
       trimIsTruthy (group 2 m) = true ->
       spansInEmittedForm parse matchDynamicImportValue (group 2 m)) /\
   (forall lastIndex m,
       HTML_STYLE_REGEX (contents file) lastIndex = Some m ->
       trimIsTruthy (group 2 m) = true -> allRulesCanonical (group 2 m) = true)) ->
  In (baseExt file) [".js"; ".html"; ".css"] ->
  String.length (contents file) < fuel ->
  transformFileImports parse matchDynamicImportValue HTML_JS_REGEX HTML_STYLE_REGEX
                       fuel file identity
  = Return (contents file).
Proof.
  intros Hjs Hcss Hhtml Hext Hfuel. unfold transformFileImports.
  destruct (String.eqb_spec (baseExt file) ".js") as [Ejs|Njs].
  { apply transformEsmImports_identity_emitted, Hjs, Ejs. }
  destruct (String.eqb_spec (baseExt file) ".html") as [Ehtml|Nhtml].
  { destruct (Hhtml Ehtml) as (Wjs & Wstyle & Bjs & Bstyle).
    unfold transformHtmlImports.
    rewrite (htmlLoop_unchanged HTML_JS_REGEX _ (contents file) Wjs); [|
      intros li m Hm Ht; apply transformEsmImports_identity_emitted, (Bjs li m Hm Ht) | lia].
    cbn [bind].
    apply (htmlLoop_unchanged HTML_STYLE_REGEX _ (contents file) Wstyle); [|lia].
    intros li m Hm Ht. apply transformCssImports_identity_canonical; [apply (Bstyle li m Hm Ht)|].
    destruct (Wstyle _ _ _ Hm) as (_ & _ & _ & Hloc).
    apply (f_equal String.length) in Hloc.
    rewrite length_append, !length_sliceFrom in Hloc. lia. }
  destruct (String.eqb_spec (baseExt file) ".css") as [Ecss|Ncss].
  { apply transformCssImports_identity_canonical; [apply Hcss, Ecss | exact Hfuel]. }
  exfalso. destruct Hext as [E|[E|[E|[]]]]; congruence.
Qed.

(** A script with a static import, a dynamic import of a double-quoted
    literal and a dynamic import of a computed specifier; a stylesheet
    with one rule in the emitted form; and a document that holds a script
    and a style. *)
Lemma identity_rewrite_fixpoint_witness :
  transformFileImports (sampleParse sampleScript sampleScriptRecords)
                       (sampleDynamicValue (dquote ++ "./b.js" ++ dquote) "./b.js")
                       noMatch noMatch
                       45 (mkSource ".js" sampleScript) identity
  = Return sampleScript
  /\ transformFileImports (sampleParse "import './a.js';" [mkImport 8 14 (-1)])
                          (fun _ => None) noMatch noMatch
                          17 (mkSource ".css" ("@import " ++ dquote ++ "a.css" ++ dquote ++ ";"))
                          identity
     = Return ("@import " ++ dquote ++ "a.css" ++ dquote ++ ";")
  /\ transformFileImports (sampleParse "import './a.js';" [mkImport 8 14 (-1)])
                          (fun _ => None)
                          (sampleExec sampleDocument sampleScriptMatch)
                          (sampleExec sampleDocument sampleStyleMatch)
                          79 (mkSource ".html" sampleDocument) identity
     = Return sampleDocument.
Proof.
  split; [|split].
  - apply identity_rewrite_fixpoint.
    + intros _. exists sampleScriptRecords. split; [reflexivity|].
      intros imp [<-|[<-|[<-|[]]]] Hkeep.
      * split; [simpl; lia | discriminate].
      * split; [simpl; lia | intros _; reflexivity].
      * vm_compute in Hkeep. discriminate.
    + discriminate.
    + discriminate.
    + simpl; auto.
    + vm_compute. lia.
  - apply identity_rewrite_fixpoint.
    + discriminate.
    + reflexivity.
    + discriminate.
    + simpl; auto.
    + simpl; lia.
  - apply identity_rewrite_fixpoint.
    + discriminate.
    + discriminate.
    + intros _. split; [|split; [|split]].
      * apply sampleExec_wellFormed; [simpl; lia | simpl; lia | reflexivity].
      * apply sampleExec_wellFormed; [simpl; lia | simpl; lia | reflexivity].
      * intros lastIndex m Hm _. apply sampleExec_inv in Hm. subst m.
        exists [mkImport 8 14 (-1)]. split; [reflexivity|].
        intros imp [<-|[]] _. split; [simpl; lia | discriminate].
      * intros lastIndex m Hm _. apply sampleExec_inv in Hm. subst m. reflexivity.
    + simpl; auto.
    + simpl; lia.
Defined.

(** C1, as stated, fails: the identity replacement changes the single
    quotes of a stylesheet rule, and those of a dynamic import, into double
    quotes. *)
Lemma identity_rewrite_changes_quotes :
  transformFileImports (sampleParse "import('./a.js')" [mkImport 7 15 0])
                       (sampleDynamicValue "'./a.js'" "./a.js") noMatch noMatch
                       2 (mkSource ".css" "@import 'x.css';") identity
  = Return ("@import " ++ dquote ++ "x.css" ++ dquote ++ ";")
  /\ Return ("@import " ++ dquote ++ "x.css" ++ dquote ++ ";") <> Return "@import 'x.css';"
  /\ transformFileImports (sampleParse "import('./a.js')" [mkImport 7 15 0])
                          (sampleDynamicValue "'./a.js'" "./a.js") noMatch noMatch
                          2 (mkSource ".js" "import('./a.js')") identity
     = Return ("import(" ++ dquote ++ "./a.js" ++ dquote ++ ")")
  /\ Return ("import(" ++ dquote ++ "./a.js" ++ dquote ++ ")") <> Return "import('./a.js')".
Proof. repeat split; try reflexivity; discriminate. Qed.

(** ** The crawler *)

Local Open Scope list_scope.

Lemma setHas_In (x : string) (s : list string) : setHas x s = true <-> In x s.
Proof.
  unfold setHas. rewrite existsb_exists. split.
  - intros (y & Hin & E). apply String.eqb_eq in E. now subst.
  - intros Hin. exists x. split; [exact Hin | apply String.eqb_refl].
Qed.

Lemma setHas_false (x : string) (s : list string) : setHas x s = false <-> ~ In x s.
Proof.
  rewrite <- setHas_In. destruct (setHas x s); split; congruence.
Qed.

Lemma setAdd_In (x y : string) (s : list string) : In y (setAdd x s) <-> y = x \/ In y s.
Proof.
  unfold setAdd. destruct (setHas x s) eqn:E.
  - apply setHas_In in E. split; [now right | intros [->|]; assumption].
  - rewrite in_app_iff. simpl. intuition.
Qed.

Lemma setAdd_NoDup (x : string) (s : list string) : NoDup s -> NoDup (setAdd x s).
Proof.
  intros H. unfold setAdd. destruct (setHas x s) eqn:E; [exact H|].
  apply setHas_false in E. apply NoDup_app; [exact H | repeat constructor; intros [] |].
  intros y Hy [<-|[]]. contradiction.
Qed.

Lemma setOfArray_NoDup (arr : list string) : NoDup (setOfArray arr).
Proof.
  unfold setOfArray.
  assert (G : forall s, NoDup s -> NoDup (fold_left (fun s x => setAdd x s) arr s)).
  { induction arr as [|x arr IH]; intros s Hs; simpl; [exact Hs|].
    apply IH, setAdd_NoDup, Hs. }
  apply G. constructor.
Qed.

Section Crawler.

Variable env : Collaborators.
Variable config : SnowpackConfig.

Lemma enqueue_bare (st : BuildSession) (v : string) :
  startsWith "/" v = false ->
  enqueueImport st v = withBare (setAdd v (allBareModuleSpecifiers st)) st.
Proof. intros H. unfold enqueueImport. now rewrite H. Qed.

Lemma enqueue_new (st : BuildSession) (v : string) :
  startsWith "/" v = true -> setHas v (allFileUrlsUnique st) = false ->
  enqueueImport st v
  = withToProcess (allFileUrlsToProcess st ++ [v])
                  (withUnique (allFileUrlsUnique st ++ [v]) st).
Proof. intros H1 H2. unfold enqueueImport, setAdd. now rewrite H1, H2. Qed.

Lemma enqueue_seen (st : BuildSession) (v : string) :
  startsWith "/" v = true -> setHas v (allFileUrlsUnique st) = true ->
  enqueueImport st v = st.
Proof. intros H1 H2. unfold enqueueImport. now rewrite H1, H2. Qed.

(** What the imports of one file add: the local URLs not seen before, each
    once, in the order they are met; they go to the discovered set and to
    the queue alike. *)
Lemma enqueue_fold_spec (l : list string) (st : BuildSession) :
  exists added,
    allFileUrlsUnique (fold_left enqueueImport l st) = allFileUrlsUnique st ++ added /\
    allFileUrlsToProcess (fold_left enqueueImport l st) = allFileUrlsToProcess st ++ added /\
    NoDup added /\
    (forall v, In v added ->
               In v l /\ startsWith "/" v = true /\ ~ In v (allFileUrlsUnique st)) /\
    (forall v, In v l -> startsWith "/" v = true ->
               In v (allFileUrlsUnique st ++ added)) /\
    trace (fold_left enqueueImport l st) = trace st /\
    optimizedImportMap (fold_left enqueueImport l st) = optimizedImportMap st /\
    onFileChangeCallback (fold_left enqueueImport l st) = onFileChangeCallback st.
Proof.
  revert st; induction l as [|v l IH]; intros st.
  - exists []. rewrite !app_nil_r. cbn [fold_left].
    split; [reflexivity|]. split; [reflexivity|]. split; [constructor|].
    split; [intros v []|]. split; [intros v []|]. repeat split.
  - cbn [fold_left].
    destruct (startsWith "/" v) eqn:Hslash.
    + destruct (setHas v (allFileUrlsUnique st)) eqn:Hhas.
      * rewrite (enqueue_seen st v Hslash Hhas).
        destruct (IH st) as (added & Hu & Hq & Hnd & Hnew & Hall & Ht & Hm & Hc).
        exists added.
        split; [exact Hu|]. split; [exact Hq|]. split; [exact Hnd|].
        split; [|split; [|now repeat split]].
        -- intros w Hw. destruct (Hnew w Hw) as (A & B & C).
           split; [now right | now split].
        -- intros w [<-|Hw] Hs; [|now apply Hall].
           apply in_app_iff. left. now apply setHas_In.
      * rewrite (enqueue_new st v Hslash Hhas).
        apply setHas_false in Hhas.
        destruct (IH (withToProcess (allFileUrlsToProcess st ++ [v])
                                    (withUnique (allFileUrlsUnique st ++ [v]) st)))
          as (added & Hu & Hq & Hnd & Hnew & Hall & Ht & Hm & Hc).
        cbn in Hu, Hq, Hnew, Hall, Ht, Hm, Hc.
        rewrite <- app_assoc in Hu, Hq, Hall. cbn [app] in Hu, Hq, Hall.
        exists (v :: added).
        split; [exact Hu|]. split; [exact Hq|].
        split; [|split; [|split; [|now repeat split]]].
        -- constructor; [|exact Hnd].
           intros Hin. apply Hnew in Hin as (_ & _ & Hin). apply Hin.
           apply in_app_iff. right. now left.
        -- intros w [<-|Hw].
           ++ split; [now left | now split].
           ++ destruct (Hnew w Hw) as (A & B & C).
              split; [now right|]. split; [exact B|].
              intros Hin. apply C. apply in_app_iff. now left.
        -- intros w [<-|Hw] Hs; [|now apply Hall].
           apply in_app_iff. right. now left.
    + rewrite (enqueue_bare st v Hslash).
      destruct (IH (withBare (setAdd v (allBareModuleSpecifiers st)) st))
        as (added & Hu & Hq & Hnd & Hnew & Hall & Ht & Hm & Hc).
      cbn in Hu, Hq, Hnew, Hall, Ht, Hm, Hc.
      exists added.
      split; [exact Hu|]. split; [exact Hq|]. split; [exact Hnd|].
      split; [|split; [|now repeat split]].
      * intros w Hw. destruct (Hnew w Hw) as (A & B & C).
        split; [now right | now split].
      * intros w [<-|Hw] Hs; [congruence | now apply Hall].
Qed.

Lemma enqueue_fold_bare (l : list string) :
  forall st,
    (forall v, In v l -> startsWith "/" v = false ->
               In v (allBareModuleSpecifiers (fold_left enqueueImport l st))) /\
    (forall v, In v (allBareModuleSpecifiers st) ->
               In v (allBareModuleSpecifiers (fold_left enqueueImport l st))) /\
    (forall v, In v (allBareModuleSpecifiers (fold_left enqueueImport l st)) ->
               In v (allBareModuleSpecifiers st) \/ (In v l /\ startsWith "/" v = false)) /\
    (NoDup (allBareModuleSpecifiers st) ->
     NoDup (allBareModuleSpecifiers (fold_left enqueueImport l st))).
Proof.
  induction l as [|x l IH]; intros st; cbn [fold_left].
  - split; [intros v []|]. split; [auto|]. split; auto.
  - destruct (IH (enqueueImport st x)) as (A & B & C & D).
    assert (Hstep : (startsWith "/" x = false /\
                     allBareModuleSpecifiers (enqueueImport st x)
                     = setAdd x (allBareModuleSpecifiers st))
                    \/ (startsWith "/" x = true /\
                        allBareModuleSpecifiers (enqueueImport st x)
                        = allBareModuleSpecifiers st)).
    { destruct (startsWith "/" x) eqn:Hs.
      - right. split; [reflexivity|].
        destruct (setHas x (allFileUrlsUnique st)) eqn:Hh.
        + now rewrite (enqueue_seen st x Hs Hh).
        + now rewrite (enqueue_new st x Hs Hh).
      - left. split; [reflexivity|]. now rewrite (enqueue_bare st x Hs). }
    split; [|split; [|split]].
    + intros v [<-|Hin] Hs; [|now apply A].
      apply B. destruct Hstep as [[_ E]|[E _]]; [|congruence].
      rewrite E. apply setAdd_In. now left.
    + intros v Hin. apply B. destruct Hstep as [[_ E]|[_ E]]; rewrite E; [|exact Hin].
      apply setAdd_In. now right.
    + intros v Hin. destruct (C v Hin) as [Hin'|[Hin' Hs]].
      * destruct Hstep as [[Hs E]|[_ E]]; rewrite E in Hin'; [|now left].
        apply setAdd_In in Hin' as [->|Hin']; [right; split; [now left | exact Hs] | now left].
      * right. split; [now right | exact Hs].
    + intros Hnd. apply D. destruct Hstep as [[_ E]|[_ E]]; rewrite E; [|exact Hnd].
      apply setAdd_NoDup, Hnd.
Qed.

Lemma flushBody_turn (ignorePkg : bool) (loadOptions : LoadUrlOptions)
      (st st' : BuildSession) :
  flushBody env config ignorePkg loadOptions st = Return st' ->
  passedOver env config ignorePkg (last (allFileUrlsToProcess st) EmptyString) = false ->
  exists result added,
    loadUrl env (last (allFileUrlsToProcess st) EmptyString) loadOptions = inr result /\
    allFileUrlsUnique st' = allFileUrlsUnique st ++ added /\
    allFileUrlsToProcess st' = removelast (allFileUrlsToProcess st) ++ added /\
    NoDup added /\
    (forall v, In v added
               <-> In v (result_imports result) /\ startsWith "/" v = true
                   /\ ~ In v (allFileUrlsUnique st)) /\
    (forall v, In v (allBareModuleSpecifiers st')
               <-> In v (allBareModuleSpecifiers st)
                   \/ (In v (result_imports result) /\ startsWith "/" v = false)) /\
    (NoDup (allBareModuleSpecifiers st) -> NoDup (allBareModuleSpecifiers st')).
Proof.
  unfold flushBody, passedOver. cbv zeta. intros H Hskip. rewrite Hskip in H.
  destruct (loadUrl env _ loadOptions) as [e|result] eqn:Hload;
    cbn [settle bind] in H; [discriminate|].
  destruct (fs_mkdirp env _) as [e|[]]; cbn [settle bind] in H; [discriminate|].
  destruct (fs_writeFile env _ _) as [e|[]]; cbn [settle bind] in H; [discriminate|].
  injection H as <-.
  match goal with |- context [fold_left enqueueImport ?l ?s] =>
    destruct (enqueue_fold_spec l s) as (added & Hu & Hq & Hnd & Hnew & Hall & _);
    destruct (enqueue_fold_bare l s) as (Ba & Bb & Bc & Bd)
  end.
  cbn in Hu, Hq, Hnew, Hall, Ba, Bb, Bc, Bd.
  exists result, added. split; [reflexivity|].
  split; [exact Hu|]. split; [exact Hq|]. split; [exact Hnd|]. split; [|split].
  - intros v. split; [apply Hnew|].
    intros (Hin & Hs & Hnot). apply (Hall v Hin) in Hs.
    apply in_app_iff in Hs as [Hs|Hs]; [now elim Hnot | exact Hs].
  - intros v. split; [apply Bc|].
    intros [Hin|[Hin Hs]]; [now apply Bb | now apply Ba].
  - exact Bd.
Qed.

Lemma loadedUrls_app (a b : list event) : loadedUrls (a ++ b) = loadedUrls a ++ loadedUrls b.
Proof.
  induction a as [|ev a IH]; [reflexivity|].
  destruct ev; cbn [app loadedUrls]; rewrite IH; reflexivity.
Qed.

(** One turn of the loop: the last URL leaves the queue; it is skipped, or
    loaded and written, and then the new local imports join the
    discovered set and the queue. *)
Lemma flushBody_spec (ignorePkg : bool) (loadOptions : LoadUrlOptions)
      (st st' : BuildSession) :
  flushBody env config ignorePkg loadOptions st = Return st' ->
  exists added new,
    allFileUrlsUnique st' = allFileUrlsUnique st ++ added /\
    allFileUrlsToProcess st' = removelast (allFileUrlsToProcess st) ++ added /\
    NoDup added /\
    (forall v, In v added -> ~ In v (allFileUrlsUnique st)) /\
    (forall v, In v added ->
               exists result,
                 loadUrl env (last (allFileUrlsToProcess st) EmptyString) loadOptions
                 = inr result /\
                 In v (result_imports result) /\ startsWith "/" v = true) /\
    trace st' = trace st ++ new /\
    forallb isCrawlEvent new = true /\
    (loadedUrls new = [] \/ loadedUrls new = [last (allFileUrlsToProcess st) EmptyString]) /\
    optimizedImportMap st' = optimizedImportMap st /\
    onFileChangeCallback st' = onFileChangeCallback st.
Proof.
  unfold flushBody. cbv zeta.
  destruct (ignorePkg && _).
  - intros [= <-]. exists [], []. rewrite !app_nil_r. cbn.
    split; [reflexivity|]. split; [reflexivity|]. split; [constructor|].
    split; [intros v []|]. split; [intros v []|].
    split; [reflexivity|]. split; [reflexivity|].
    split; [now left|]. now split.
  - destruct (loadUrl env _ loadOptions) as [e|result] eqn:Hload;
      cbn [settle bind]; [discriminate|].
    destruct (fs_mkdirp env _) as [e|[]]; cbn [settle bind]; [discriminate|].
    destruct (fs_writeFile env _ _) as [e|[]]; cbn [settle bind]; [discriminate|].
    intros [= <-].
    match goal with |- context [fold_left enqueueImport ?l ?s] =>
      destruct (enqueue_fold_spec l s) as (added & Hu & Hq & Hnd & Hnew & _ & Ht & Hm & Hc)
    end.
    cbn in Hu, Hq, Hnew, Ht, Hm, Hc.
    exists added. eexists.
    split; [exact Hu|]. split; [exact Hq|]. split; [exact Hnd|].
    split; [intros v Hv; now apply Hnew|].
    split; [intros v Hv; exists result; split; [reflexivity | split; now apply Hnew]|].
    split; [rewrite Ht, <- !app_assoc; reflexivity|].
    split; [reflexivity|]. split; [now right|]. now split.
Qed.

(** A flush that returns: the queue is empty, the discovered set has only
    grown, the trace has grown by loads and writes only, and, when the
    flush starts from a queue without repetition that lies within the
    discovered set, no URL is loaded twice. *)
Lemma flushLoop_spec (ignorePkg : bool) (loadOptions : LoadUrlOptions) (fuel : nat) :
  forall st st',
    flushLoop env config fuel ignorePkg loadOptions st = Return st' ->
    allFileUrlsToProcess st' = [] /\
    exists added new,
      allFileUrlsUnique st' = allFileUrlsUnique st ++ added /\
      NoDup added /\
      (forall v, In v added -> ~ In v (allFileUrlsUnique st)) /\
      trace st' = trace st ++ new /\
      forallb isCrawlEvent new = true /\
      optimizedImportMap st' = optimizedImportMap st /\
      onFileChangeCallback st' = onFileChangeCallback st /\
      (NoDup (allFileUrlsToProcess st) ->
       incl (allFileUrlsToProcess st) (allFileUrlsUnique st) ->
       NoDup (loadedUrls new) /\
       forall u, In u (loadedUrls new) -> In u (allFileUrlsToProcess st) \/ In u added).
Proof.
  induction fuel as [|fuel IH]; intros st st'; [discriminate|].
  cbn [flushLoop].
  destruct (allFileUrlsToProcess st) as [|q0 qs] eqn:Hqueue.
  - intros [= <-]. split; [exact Hqueue|].
    exists [], []. rewrite !app_nil_r.
    split; [reflexivity|]. split; [constructor|]. split; [intros v []|].
    split; [reflexivity|]. split; [reflexivity|]. split; [reflexivity|].
    split; [reflexivity|]. intros _ _. split; [constructor | intros u []].
  - rewrite <- Hqueue.
    destruct (flushBody env config ignorePkg loadOptions st) as [st1| |] eqn:Hbody;
      cbn [bind]; try discriminate.
    intros Hrest.
    destruct (flushBody_spec _ _ _ _ Hbody)
      as (added0 & new0 & Hu0 & Hq0 & Hnd0 & Hnew0 & _ & Ht0 & Hev0 & Hld0 & Hm0 & Hc0).
    destruct (IH _ _ Hrest)
      as (Hempty & added1 & new1 & Hu1 & Hnd1 & Hnew1 & Ht1 & Hev1 & Hm1 & Hc1 & Honce1).
    split; [exact Hempty|].
    exists (added0 ++ added1), (new0 ++ new1).
    split; [rewrite Hu1, Hu0, app_assoc; reflexivity|].
    split.
    { apply NoDup_app; [exact Hnd0 | exact Hnd1 |].
      intros v Hv0 Hv1. apply (Hnew1 v Hv1). rewrite Hu0. apply in_app_iff. now right. }
    split.
    { intros v Hv. apply in_app_iff in Hv as [Hv|Hv]; [now apply Hnew0|].
      intros Hin. apply (Hnew1 v Hv). rewrite Hu0. apply in_app_iff. now left. }
    split; [rewrite Ht1, Ht0, app_assoc; reflexivity|].
    split; [rewrite forallb_app, Hev0, Hev1; reflexivity|].
    split; [congruence|]. split; [congruence|].
    intros Hnd Hincl.
    assert (Hne : allFileUrlsToProcess st <> []) by (rewrite Hqueue; discriminate).
    pose proof (app_removelast_last EmptyString Hne) as Hsplit.
    set (u := last (allFileUrlsToProcess st) EmptyString) in *.
    set (rest := removelast (allFileUrlsToProcess st)) in *.
    assert (Hnd' : NoDup (rest ++ [u])) by (rewrite <- Hsplit; exact Hnd).
    assert (Hu_rest : ~ In u rest).
    { intros Hin. apply NoDup_remove_2 in Hnd'. apply Hnd'. now rewrite app_nil_r. }
    assert (Hu_unique : In u (allFileUrlsUnique st)).
    { apply Hincl. rewrite Hsplit. apply in_app_iff. right. now left. }
    assert (Hrest_unique : forall w, In w rest -> In w (allFileUrlsUnique st)).
    { intros w Hw. apply Hincl. rewrite Hsplit. apply in_app_iff. now left. }
    destruct Honce1 as [Hnd_loaded Hfrom].
    { rewrite Hq0. apply NoDup_app; [now apply NoDup_app_remove_r in Hnd' | exact Hnd0 |].
      intros w Hw Hw'. apply (Hnew0 w Hw'), Hrest_unique, Hw. }
    { intros w Hw. rewrite Hq0 in Hw. rewrite Hu0. apply in_app_iff.
      apply in_app_iff in Hw as [Hw|Hw]; [left; now apply Hrest_unique | now right]. }
    assert (Hu_later : ~ In u (loadedUrls new1)).
    { intros Hin. destruct (Hfrom u Hin) as [Hin'|Hin'].
      - rewrite Hq0 in Hin'. apply in_app_iff in Hin' as [Hin'|Hin'];
          [now apply Hu_rest | now apply (Hnew0 u Hin')].
      - apply (Hnew1 u Hin'). rewrite Hu0. apply in_app_iff. now left. }
    rewrite loadedUrls_app. split.
    + destruct Hld0 as [->| ->]; [exact Hnd_loaded|].
      cbn [app]. constructor; assumption.
    + intros w Hw. apply in_app_iff in Hw as [Hw|Hw].
      * destruct Hld0 as [E|E]; rewrite E in Hw; [destruct Hw|].
        destruct Hw as [<-|[]]. left. rewrite Hsplit. apply in_app_iff. right. now left.
      * destruct (Hfrom w Hw) as [Hin|Hin].
        -- rewrite Hq0 in Hin. apply in_app_iff in Hin as [Hin|Hin].
           ++ left. rewrite Hsplit. apply in_app_iff. now left.
           ++ right. apply in_app_iff. now left.
        -- right. apply in_app_iff. now right.
Qed.

(** *** Termination *)










End Crawler.




(** ** The build *)

Lemma flushFileQueue_spec (env : Collaborators) (config : SnowpackConfig)
      (fuel : nat) (ignorePkg : bool) (loadOptions : LoadUrlOptions) (st st' : BuildSession) :
  flushFileQueue env config fuel ignorePkg loadOptions st = Return st' ->
  allFileUrlsToProcess st' = [] /\
  optimizedImportMap st' = optimizedImportMap st /\
  onFileChangeCallback st' = onFileChangeCallback st /\
  (NoDup (allFileUrlsUnique st) -> NoDup (allFileUrlsUnique st')) /\
  exists added new,
    allFileUrlsUnique st' = allFileUrlsUnique st ++ added /\
    trace st' = trace st ++ EvFlush ignorePkg loadOptions (allFileUrlsToProcess st) :: new /\
    forallb isCrawlEvent new = true /\
    (NoDup (allFileUrlsToProcess st) ->
     incl (allFileUrlsToProcess st) (allFileUrlsUnique st) ->
     NoDup (loadedUrls new)).
Proof.
  unfold flushFileQueue. intros Hflush.
  destruct (flushLoop_spec _ _ _ _ _ _ _ Hflush)
    as (Hempty & added & new & Hu & Hnd & Hnew & Ht & Hev & Hm & Hc & Honce).
  cbn in Hu, Hnew, Ht, Hm, Hc, Honce.
  split; [exact Hempty|]. split; [exact Hm|]. split; [exact Hc|]. split.
  - intros Hnd0. rewrite Hu. apply NoDup_app; [exact Hnd0 | exact Hnd |].
    intros v Hv Hv'. now apply (Hnew v Hv').
  - exists added, new. split; [exact Hu|]. split.
    + rewrite Ht, <- app_assoc. reflexivity.
    + split; [exact Hev|]. intros A B. now apply Honce.
Qed.




(** The shape of a build that returns. *)
Lemma build_trace (env : Collaborators) (config : SnowpackConfig) (fuel : nat)
      (handle : SnowpackBuildResult) (final : BuildSession) :
  build env config fuel = Return (handle, final) ->
  exists allFileUrls st1 crawl1 crawl2,
    mountScan env (mountedFiles env) = Return allFileUrls /\
    buildPass1 env config fuel = Return st1 /\
    trace final
    = setupEvents config
      ++ EvFlush false (pass1Options config) (setOfArray allFileUrls) :: crawl1
      ++ (if buildOptions_watch config then []
          else [EvInstallPackages (allBareModuleSpecifiers st1) (installDestOf env config)
                                  (installTreeshake config)])
      ++ EvFlush (negb (buildOptions_watch config))
                 (pass2Options config (optimizedImportMap final))
                 (allFileUrlsUnique st1) :: crawl2
      ++ finishEvents config /\
    forallb isCrawlEvent crawl1 = true /\
    forallb isCrawlEvent crawl2 = true /\
    NoDup (loadedUrls crawl1) /\
    NoDup (loadedUrls crawl2) /\
    optimizedImportMap final
    = (if buildOptions_watch config then None
       else match installPackages env (allBareModuleSpecifiers st1) (installDestOf env config)
                                  (installTreeshake config) with
            | inr importMap => Some importMap
            | inl _ => None
            end) /\
    (buildOptions_watch config = false ->
     exists importMap,
       installPackages env (allBareModuleSpecifiers st1) (installDestOf env config)
                       (installTreeshake config) = inr importMap).
Proof.
  unfold build.
  destruct (buildPass1 env config fuel) as [st1| |] eqn:H1; cbn [bind]; try discriminate.
  destruct (buildPackages env config st1) as [st2| |] eqn:Hp; cbn [bind]; try discriminate.
  destruct (buildPass2 env config fuel st2) as [st3| |] eqn:H2; cbn [bind]; try discriminate.
  intros Hend.
  (* the first pass *)
  pose proof H1 as H1'. unfold buildPass1 in H1'. cbv zeta in H1'.
  destruct (mountScan env (mountedFiles env)) as [allFileUrls| |] eqn:Hscan;
    cbn [bind] in H1'; try discriminate.
  apply flushFileQueue_spec in H1'
    as (_ & Hm1 & _ & Hnd1 & added1 & crawl1 & Hu1 & Ht1 & Hev1 & Honce1).
  cbn [allFileUrlsUnique allFileUrlsToProcess withUnique withToProcess optimizedImportMap
       trace emit] in Hm1, Hnd1, Hu1, Ht1, Honce1.
  specialize (Hnd1 (setOfArray_NoDup allFileUrls)).
  specialize (Honce1 (setOfArray_NoDup allFileUrls) (fun u H => H)).
  assert (Htr1 : trace st1
                 = setupEvents config
                   ++ EvFlush false (pass1Options config) (setOfArray allFileUrls) :: crawl1).
  { rewrite Ht1. unfold setupEvents. destruct (buildOptions_clean config); reflexivity. }
  clear Ht1.
  assert (Hnone : optimizedImportMap st1 = None)
    by (rewrite Hm1; destruct (buildOptions_clean config); reflexivity).
  clear Hm1.
  (* the second pass *)
  unfold buildPass2 in H2. cbv zeta in H2.
  apply flushFileQueue_spec in H2
    as (_ & Hm2 & _ & _ & added2 & crawl2 & _ & Ht2 & Hev2 & Honce2).
  cbn [allFileUrlsUnique allFileUrlsToProcess withUnique withToProcess optimizedImportMap
       trace emit] in Hm2, Ht2, Honce2.
  (* the package step *)
  unfold buildPackages, installOptimizedDependencies in Hp.
  exists allFileUrls, st1, crawl1, crawl2.
  split; [reflexivity|]. split; [reflexivity|].
  fold (installDestOf env config) in Hp.
  destruct (buildOptions_watch config) eqn:Hwatch; cbn [negb] in *.
  - injection Hp as <-. injection Hend as _ <-.
    unfold finishEvents. rewrite Hwatch, app_nil_r.
    rewrite Hm2, Hnone. rewrite Ht2, Htr1, Hnone, <- app_assoc. cbn [app].
    split; [reflexivity|]. split; [exact Hev1|]. split; [exact Hev2|].
    split; [exact Honce1|]. split; [apply Honce2; [exact Hnd1 | intros u H; exact H]|].
    split; [reflexivity | discriminate].
  - destruct (installPackages env (allBareModuleSpecifiers st1) (installDestOf env config)
                              (installTreeshake config)) as [e|importMap] eqn:Hinst;
      cbn [settle bind] in Hp; [discriminate|].
    injection Hp as <-.
    cbn [allFileUrlsUnique allFileUrlsToProcess withImportMap optimizedImportMap
         trace emit fst snd] in Hm2, Ht2, Honce2.
    injection Hend as _ <-.
    assert (Hfin : forall st, trace (buildFinish config st) = trace st ++ finishEvents config).
    { intros st. unfold buildFinish, finishEvents. rewrite Hwatch.
      destruct (_ || _); cbn; rewrite <- !app_assoc; reflexivity. }
    assert (Hmap : forall st, optimizedImportMap (buildFinish config st) = optimizedImportMap st).
    { intros st. unfold buildFinish. destruct (_ || _); reflexivity. }
    rewrite Hfin, Hmap, Hm2, Ht2, Htr1, <- !app_assoc. cbn [app].
    split; [reflexivity|].
    split; [exact Hev1|]. split; [exact Hev2|].
    split; [exact Honce1|]. split; [apply Honce2; [exact Hnd1 | intros u H; exact H]|].
    split; [reflexivity|]. intros _. now exists importMap.
Qed.

(** C2, amended.  A turn of the flush loop that passes over the popped
    URL only removes it from the queue.  Otherwise the popped URL has
    been loaded, and for the specifiers that the load has answered: those
    that begin with [/] and are not in the discovered set are, each once,
    what is added to the discovered set and pushed on the queue, one that
    is already in the discovered set being neither added nor pushed; the
    set of bare specifiers afterwards holds what it held and the answered
    specifiers that do not begin with [/], without repetition.  So the
    discovered set only grows, over the turns and over a whole flush; a
    flush that starts from a queue without repetition taken from the
    discovered set loads no URL twice, and neither pass of a build
    does. *)
Theorem crawler_enqueues_new_urls_once (env : Collaborators) (config : SnowpackConfig) :
  (forall ignorePkg loadOptions st st',
      allFileUrlsToProcess st <> [] ->
      flushBody env config ignorePkg loadOptions st = Return st' ->
      (passedOver env config ignorePkg (last (allFileUrlsToProcess st) EmptyString) = true ->
       st' = withToProcess (removelast (allFileUrlsToProcess st)) st)
      /\ (passedOver env config ignorePkg (last (allFileUrlsToProcess st) EmptyString) = false ->
          exists result added,
            loadUrl env (last (allFileUrlsToProcess st) EmptyString) loadOptions = inr result /\
            allFileUrlsUnique st' = allFileUrlsUnique st ++ added /\
            allFileUrlsToProcess st' = removelast (allFileUrlsToProcess st) ++ added /\
            NoDup added /\
            (forall v, In v added
                       <-> In v (result_imports result) /\ startsWith "/" v = true
                           /\ ~ In v (allFileUrlsUnique st)) /\
            (forall v, In v (allBareModuleSpecifiers st')
                       <-> In v (allBareModuleSpecifiers st)
                           \/ (In v (result_imports result) /\ startsWith "/" v = false)) /\
            (NoDup (allBareModuleSpecifiers st) -> NoDup (allBareModuleSpecifiers st'))))
  /\ (forall ignorePkg loadOptions st st',
         crawls env config ignorePkg loadOptions st st' ->
         exists added, allFileUrlsUnique st' = allFileUrlsUnique st ++ added)
  /\ (forall fuel ignorePkg loadOptions st st',
         flushFileQueue env config fuel ignorePkg loadOptions st = Return st' ->
         (exists added,
             allFileUrlsUnique st' = allFileUrlsUnique st ++ added
             /\ (NoDup (allFileUrlsUnique st) -> NoDup (allFileUrlsUnique st')))
         /\ (NoDup (allFileUrlsToProcess st) ->
             incl (allFileUrlsToProcess st) (allFileUrlsUnique st) ->
             exists new,
               trace st'
               = trace st ++ EvFlush ignorePkg loadOptions (allFileUrlsToProcess st) :: new
               /\ NoDup (loadedUrls new)))
  /\ (forall fuel handle final,
         build env config fuel = Return (handle, final) ->
         exists allFileUrls st1 crawl1 crawl2,
           buildPass1 env config fuel = Return st1 /\
           trace final
           = setupEvents config
             ++ EvFlush false (pass1Options config) (setOfArray allFileUrls) :: crawl1
             ++ (if buildOptions_watch config then []
                 else [EvInstallPackages (allBareModuleSpecifiers st1)
                                         (installDestOf env config)
                                         (installTreeshake config)])
             ++ EvFlush (negb (buildOptions_watch config))
                        (pass2Options config (optimizedImportMap final))
                        (allFileUrlsUnique st1) :: crawl2
             ++ finishEvents config /\
           forallb isCrawlEvent crawl1 = true /\
           forallb isCrawlEvent crawl2 = true /\
           NoDup (loadedUrls crawl1) /\
           NoDup (loadedUrls crawl2)).
Proof.
  split; [|split; [|split]].
  - intros ignorePkg loadOptions st st' Hne Hbody. split.
    + intros Hskip. unfold flushBody, passedOver in *. cbv zeta in Hbody.
      rewrite Hskip in Hbody. now injection Hbody as <-.
    + intros Hskip. apply (flushBody_turn _ _ _ _ _ _ Hbody Hskip).
  - intros ignorePkg loadOptions st st' Hcrawl.
    induction Hcrawl as [st|st st1 st2 _ Hbody _ IH].
    + exists []. now rewrite app_nil_r.
    + destruct (flushBody_spec _ _ _ _ _ _ Hbody) as (added0 & _ & Hu0 & _).
      destruct IH as (added1 & Hu1).
      exists (added0 ++ added1). now rewrite Hu1, Hu0, app_assoc.
  - intros fuel ignorePkg loadOptions st st' Hflush. unfold flushFileQueue in Hflush.
    destruct (flushLoop_spec _ _ _ _ _ _ _ Hflush)
      as (_ & added & new & Hu & Hnd & Hnew & Ht & _ & _ & _ & Honce).
    cbn in Hu, Hnew, Ht, Honce. split.
    + exists added. split; [exact Hu|].
      intros Hnd0. rewrite Hu. apply NoDup_app; [exact Hnd0 | exact Hnd |].
      intros v Hv Hv'. now apply (Hnew v Hv').
    + intros Hndq Hincl. exists new. split.
      * rewrite Ht, <- app_assoc. reflexivity.
      * now apply Honce.
  - intros fuel handle final Hbuild.
    destruct (build_trace _ _ _ _ _ Hbuild)
      as (allFileUrls & st1 & crawl1 & crawl2 & _ & H1 & Ht & Hc1 & Hc2 & Hn1 & Hn2 & _).
    exists allFileUrls, st1, crawl1, crawl2. now repeat split.
Qed.

(** The first turn of the crawl of the sample site: [/index.html] is
    loaded, and [/a.js], which it imports, is discovered and queued. *)
Lemma crawler_enqueues_new_urls_once_witness :
  exists result added,
    sampleLoad "/index.html" (mkLoadOptions false false false None) = inr result /\
    ["/index.html"; "/a.js"] = ["/index.html"] ++ added /\
    ["/a.js"] = [] ++ added /\
    NoDup added /\
    (forall v, In v added
               <-> In v (result_imports result) /\ startsWith "/" v = true
                   /\ ~ In v ["/index.html"]) /\
    (forall v, In v []
               <-> In v []
                   \/ (In v (result_imports result) /\ startsWith "/" v = false)) /\
    (NoDup (@nil string) -> NoDup (@nil string)).
Proof.
  destruct (crawler_enqueues_new_urls_once
              (sampleCollaborators sampleLoad ["src/index.html"]) (sampleConfig false))
    as (H & _).
  refine (proj2 (H false (mkLoadOptions false false false None) sampleSession
                   (mkSession ["/index.html"; "/a.js"] ["/a.js"] [] None noopCallback
                              [EvLoadUrl "/index.html" (mkLoadOptions false false false None);
                               EvMkdirp "build/index.html";
                               EvWriteFile "build/index.html" "<html>"])
                   _ _) _).
  - discriminate.
  - vm_compute. reflexivity.
  - reflexivity.
Defined.

(** C2, as stated, fails in its last part: the flush that a file change
    starts loads [/new.js] twice.  The handler pushes [/new.js] without
    adding it to the discovered set, so that the import of [/new.js] by
    [/util.js] finds it new and queues it again. *)
Lemma watch_flush_loads_a_url_twice :
  exists st',
    fileChangeHandler (sampleCollaborators sampleCyclicLoad ["src/index.html"])
                      (sampleConfig true) 5 "src/new.js" sampleWatchSession
    = Return st'
    /\ loadedUrls (trace st') = ["/new.js"; "/util.js"; "/new.js"]
    /\ ~ NoDup (loadedUrls (trace st')).
Proof.
  destruct (fileChangeHandler (sampleCollaborators sampleCyclicLoad ["src/index.html"])
                              (sampleConfig true) 5 "src/new.js" sampleWatchSession)
    as [st'|e|] eqn:H;
    [|vm_compute in H; discriminate|vm_compute in H; discriminate].
  exists st'. vm_compute in H. injection H as <-.
  split; [reflexivity|]. split; [vm_compute; reflexivity|].
  intros Hnd. vm_compute in Hnd. inversion Hnd as [|x l Hnot _]. apply Hnot.
  right. now left.
Qed.







(** ** Errors *)

Lemma transformEsmImports_throw
      (parse : string -> string + list ImportSpecifier)
      (matchDynamicImportValue : string -> option string)
      (code : string) (replaceImport : string -> string) (e : error) :
  transformEsmImports parse matchDynamicImportValue code replaceImport = Throw e ->
  exists message, e = ExternalError message.
Proof.
  unfold transformEsmImports, scanCodeImportsExports.
  destruct (parse code) as [message|imports]; cbn [bind]; [|discriminate].
  intros [= <-]. now exists message.
Qed.

Lemma cssLoop_never_throws (fuel : nat) (replaceImport : string -> string) :
  forall code lastIndex e, cssLoop fuel replaceImport code lastIndex <> Throw e.
Proof.
  induction fuel as [|fuel IH]; intros code lastIndex e; [discriminate|].
  cbn [cssLoop]. destruct (CssRegex.CSS_REGEX code lastIndex); [apply IH | discriminate].
Qed.

Lemma htmlLoop_throw (regex : RegExpExec) (transform : string -> outcome string) (fuel : nat) :
  forall code lastIndex e,
    htmlLoop regex transform fuel code lastIndex = Throw e ->
    exists body, transform body = Throw e.
Proof.
  induction fuel as [|fuel IH]; intros code lastIndex e; [discriminate|].
  cbn [htmlLoop]. destruct (regex code lastIndex) as [m|]; [|discriminate].
  cbv zeta. destruct (trimIsTruthy (group 2 m)); [|apply IH].
  destruct (transform (group 2 m)) as [t|e'|] eqn:Ht; cbn [bind]; [apply IH | | discriminate].
  intros [= <-]. now exists (group 2 m).
Qed.

Lemma transformFileImports_incompatible
      (parse : string -> string + list ImportSpecifier)
      (matchDynamicImportValue : string -> option string)
      (HTML_JS_REGEX HTML_STYLE_REGEX : RegExpExec)
      (fuel : nat) (file : SnowpackSourceFile) (replaceImport : string -> string) (ext : string) :
  transformFileImports parse matchDynamicImportValue HTML_JS_REGEX HTML_STYLE_REGEX
                       fuel file replaceImport = Throw (IncompatibleFiletype ext) ->
  ext = baseExt file /\ ~ In (baseExt file) [".js"; ".html"; ".css"].
Proof.
  unfold transformFileImports.
  destruct (String.eqb_spec (baseExt file) ".js") as [Ejs|Njs].
  { intros H. apply transformEsmImports_throw in H as [message H]. discriminate. }
  destruct (String.eqb_spec (baseExt file) ".html") as [Ehtml|Nhtml].
  { unfold transformHtmlImports. intros H.
    destruct (htmlLoop HTML_JS_REGEX _ fuel (contents file) 0) as [code1|e1|] eqn:H1;
      cbn [bind] in H; try discriminate.
    - apply htmlLoop_throw in H as [body H]. now apply cssLoop_never_throws in H.
    - injection H as ->. apply htmlLoop_throw in H1 as [body H1].
      apply transformEsmImports_throw in H1 as [message H1]. discriminate. }
  destruct (String.eqb_spec (baseExt file) ".css") as [Ecss|Ncss].
  { intros H. now apply cssLoop_never_throws in H. }
  intros [= <-]. split; [reflexivity|].
  intros [E|[E|[E|[]]]]; congruence.
Qed.

Lemma flushBody_rejects (env : Collaborators) (config : SnowpackConfig)
      (ignorePkg : bool) (loadOptions : LoadUrlOptions) (st : BuildSession) (e : error) :
  ignorePkg && startsWith (pkgUrlPrefix env config)
                          (last (allFileUrlsToProcess st) EmptyString) = false ->
  loadUrl env (last (allFileUrlsToProcess st) EmptyString) loadOptions = inl e ->
  flushBody env config ignorePkg loadOptions st = Throw e.
Proof.
  intros Hskip Hload. unfold flushBody. cbv zeta. rewrite Hskip, Hload. reflexivity.
Qed.

Lemma flushLoop_throws_later (env : Collaborators) (config : SnowpackConfig)
      (ignorePkg : bool) (loadOptions : LoadUrlOptions) (st st' : BuildSession) (e : error) :
  crawls env config ignorePkg loadOptions st st' ->
  allFileUrlsToProcess st' <> [] ->
  flushBody env config ignorePkg loadOptions st' = Throw e ->
  exists n, forall fuel, n < fuel -> flushLoop env config fuel ignorePkg loadOptions st = Throw e.
Proof.
  intros Hcrawl Hne Hthrow.
  induction Hcrawl as [st|st st1 st2 Hne1 Hbody _ IH].
  - exists 0. intros [|fuel] Hfuel; [lia|]. cbn [flushLoop].
    destruct (allFileUrlsToProcess st); [now elim Hne|]. now rewrite Hthrow.
  - destruct (IH Hne Hthrow) as [n Hn]. exists (S n).
    intros [|fuel] Hfuel; [lia|]. cbn [flushLoop].
    destruct (allFileUrlsToProcess st); [now elim Hne1|].
    rewrite Hbody. cbn [bind]. apply Hn. lia.
Qed.

Lemma flushLoop_more_fuel (env : Collaborators) (config : SnowpackConfig)
      (ignorePkg : bool) (loadOptions : LoadUrlOptions) (fuel : nat) :
  forall st extra,
    flushLoop env config fuel ignorePkg loadOptions st <> OutOfFuel ->
    flushLoop env config (fuel + extra) ignorePkg loadOptions st
    = flushLoop env config fuel ignorePkg loadOptions st.
Proof.
  induction fuel as [|fuel IH]; intros st extra H; [now elim H|].
  cbn [Nat.add flushLoop] in *.
  destruct (allFileUrlsToProcess st); [reflexivity|].
  destruct (flushBody env config ignorePkg loadOptions st) as [st1|e|]; cbn [bind] in *;
    [now apply IH | reflexivity | reflexivity].
Qed.

Lemma buildPass1_mounted (env : Collaborators) (config : SnowpackConfig)
      (fuel : nat) (allFileUrls : list string) :
  mountScan env (mountedFiles env) = Return allFileUrls ->
  buildPass1 env config fuel
  = flushFileQueue env config fuel false (pass1Options config)
                   (mountedSession config allFileUrls).
Proof. intros H. unfold buildPass1. rewrite H. reflexivity. Qed.

Lemma buildPass1_more_fuel (env : Collaborators) (config : SnowpackConfig)
      (fuel extra : nat) (st : BuildSession) :
  buildPass1 env config fuel = Return st ->
  buildPass1 env config (fuel + extra) = Return st.
Proof.
  unfold buildPass1, flushFileQueue.
  destruct (mountScan env (mountedFiles env)) as [roots|e|]; cbn [bind]; try discriminate.
  intros H. rewrite flushLoop_more_fuel; [exact H | congruence].
Qed.

Lemma flushFileQueue_meets_rejection (env : Collaborators) (config : SnowpackConfig)
      (ignorePkg : bool) (loadOptions : LoadUrlOptions) (st : BuildSession) (e : error) :
  crawlMeetsRejection env config ignorePkg loadOptions st e ->
  exists n, forall fuel,
      n < fuel -> flushFileQueue env config fuel ignorePkg loadOptions st = Throw e.
Proof.
  intros (st' & Hcrawl & Hne & Hskip & Hload). unfold flushFileQueue.
  apply (flushLoop_throws_later _ _ _ _ _ _ _ Hcrawl Hne).
  now apply flushBody_rejects.
Qed.

(** C7.  [transformFileImports] throws the incompatible-filetype error, for
    the extension of the file, exactly when that extension is none of
    [.js], [.html], [.css]; for those three it never throws that error.
    A failure that makes the dev server reject the load of a URL aborts
    the build: when the first crawl of [build], or its second crawl after
    a first crawl and a package step that return, comes to a URL that is
    not passed over and whose load is rejected with an error, [build]
    throws that very error and [command] ends by [process.exit(1)] with
    it, whatever fuel above a bound is given. *)
Theorem incompatible_filetype_aborts_build :
  (forall parse matchDynamicImportValue HTML_JS_REGEX HTML_STYLE_REGEX fuel file replaceImport,
      (transformFileImports parse matchDynamicImportValue HTML_JS_REGEX HTML_STYLE_REGEX
                            fuel file replaceImport
       = Throw (IncompatibleFiletype (baseExt file))
       <-> ~ In (baseExt file) [".js"; ".html"; ".css"])
      /\ (forall ext,
             In (baseExt file) [".js"; ".html"; ".css"] ->
             transformFileImports parse matchDynamicImportValue HTML_JS_REGEX HTML_STYLE_REGEX
                                  fuel file replaceImport
             <> Throw (IncompatibleFiletype ext)))
  /\ (forall env config allFileUrls e,
         mountScan env (mountedFiles env) = Return allFileUrls ->
         crawlMeetsRejection env config false (pass1Options config)
                             (mountedSession config allFileUrls) e ->
         exists n, forall fuel,
             n < fuel ->
             build env config fuel = Throw e
             /\ command env config fuel = Return (exitProcess 1 e))
  /\ (forall env config fuel1 st1 st2 e,
         buildPass1 env config fuel1 = Return st1 ->
         buildPackages env config st1 = Return st2 ->
         crawlMeetsRejection env config (negb (buildOptions_watch config))
                             (pass2Options config (optimizedImportMap st2))
                             (withToProcess (allFileUrlsUnique st2) st2) e ->
         exists n, forall fuel,
             n < fuel ->
             build env config fuel = Throw e
             /\ command env config fuel = Return (exitProcess 1 e)).
Proof.
  split; [|split].
  - intros parse mdiv hj hs fuel file replaceImport. split; [split|].
    + intros H. now apply transformFileImports_incompatible in H.
    + intros Hnot. unfold transformFileImports.
      destruct (String.eqb_spec (baseExt file) ".js") as [E|_];
        [elim Hnot; rewrite E; simpl; auto|].
      destruct (String.eqb_spec (baseExt file) ".html") as [E|_];
        [elim Hnot; rewrite E; simpl; auto|].
      destruct (String.eqb_spec (baseExt file) ".css") as [E|_];
        [elim Hnot; rewrite E; simpl; auto|].
      reflexivity.
    + intros ext Hin H. apply transformFileImports_incompatible in H as [_ H]. now apply H.
  - intros env config allFileUrls e Hscan Hmeets.
    destruct (flushFileQueue_meets_rejection _ _ _ _ _ _ Hmeets) as [n Hn].
    exists n. intros fuel Hfuel.
    assert (Hbuild : build env config fuel = Throw e).
    { unfold build. rewrite (buildPass1_mounted _ _ _ _ Hscan), (Hn fuel Hfuel). reflexivity. }
    split; [exact Hbuild|]. unfold command. now rewrite Hbuild.
  - intros env config fuel1 st1 st2 e H1 Hp Hmeets.
    destruct (flushFileQueue_meets_rejection _ _ _ _ _ _ Hmeets) as [n Hn].
    exists (fuel1 + n). intros fuel Hfuel.
    assert (Hbuild : build env config fuel = Throw e).
    { unfold build. replace fuel with (fuel1 + (fuel - fuel1)) at 1 by lia.
      rewrite (buildPass1_more_fuel _ _ _ _ _ H1). cbn [bind]. rewrite Hp. cbn [bind].
      unfold buildPass2. cbv zeta. cbn [optimizedImportMap withToProcess].
      rewrite Hn by lia. reflexivity. }
    split; [exact Hbuild|]. unfold command. now rewrite Hbuild.
Qed.

(** Two builds of the sample site.  In the first, [src/notes.md] is
    mounted and the dev server rejects its load in the first crawl; in
    the second, the dev server rejects [/a.js] once imports are resolved,
    so that the first crawl and the package step return and the second
    crawl fails. *)
Lemma incompatible_filetype_aborts_build_witness :
  (exists n, forall fuel,
       n < fuel ->
       build (sampleCollaborators sampleLoad ["src/index.html"; "src/notes.md"])
             (sampleConfig false) fuel
       = Throw (IncompatibleFiletype ".md")
       /\ command (sampleCollaborators sampleLoad ["src/index.html"; "src/notes.md"])
                  (sampleConfig false) fuel
          = Return (exitProcess 1 (IncompatibleFiletype ".md")))
  /\ (exists n, forall fuel,
         n < fuel ->
         build (sampleCollaborators sampleLoadRejectingWhenResolved ["src/index.html"])
               (sampleConfig false) fuel
         = Throw (IncompatibleFiletype ".js")
         /\ command (sampleCollaborators sampleLoadRejectingWhenResolved ["src/index.html"])
                    (sampleConfig false) fuel
            = Return (exitProcess 1 (IncompatibleFiletype ".js"))).
Proof.
  split.
  - apply (proj1 (proj2 incompatible_filetype_aborts_build)
                 (sampleCollaborators sampleLoad ["src/index.html"; "src/notes.md"])
                 (sampleConfig false) ["/index.html"; "/notes.md"]).
    + vm_compute. reflexivity.
    + eexists. split; [apply crawls_here|].
      split; [vm_compute; discriminate|]. split; vm_compute; reflexivity.
  - destruct (buildPass1 (sampleCollaborators sampleLoadRejectingWhenResolved ["src/index.html"])
                         (sampleConfig false) 4) as [st1|e|] eqn:H1;
      [|vm_compute in H1; discriminate|vm_compute in H1; discriminate].
    destruct (buildPackages (sampleCollaborators sampleLoadRejectingWhenResolved
                                                 ["src/index.html"])
                            (sampleConfig false) st1) as [st2|e|] eqn:H2;
      [|vm_compute in H1; injection H1 as <-; vm_compute in H2; discriminate
       |vm_compute in H1; injection H1 as <-; vm_compute in H2; discriminate].
    apply (proj2 (proj2 incompatible_filetype_aborts_build)
                 (sampleCollaborators sampleLoadRejectingWhenResolved ["src/index.html"])
                 (sampleConfig false) 4 st1 st2 (IncompatibleFiletype ".js") H1 H2).
    vm_compute in H1. injection H1 as <-. vm_compute in H2. injection H2 as <-.
    eexists. split; [apply crawls_here|].
    split; [vm_compute; discriminate|]. split; vm_compute; reflexivity.
Defined.

(** ** The cleanup of the output tree *)

Lemma removeEmptyFolders_Dir (files : list (string * node)) :
  removeEmptyFolders (Dir files)
  = match files with
    | [] => (false, None)
    | _ :: _ =>
        match cleanEntries files with
        | [] => (true, None)
        | _ :: _ => (true, Some (Dir (cleanEntries files)))
        end
    end.
Proof. destruct files; reflexivity. Qed.

Lemma node_induction (P : node -> Prop) :
  (forall data, P (File data)) ->
  (forall files, Forall (fun entry => P (snd entry)) files -> P (Dir files)) ->
  forall n, P n.
Proof.
  intros HF HD. fix IH 1. intros [data|files]; [apply HF|].
  apply HD. induction files as [|[name child] files IHf]; constructor.
  - apply IH.
  - exact IHf.
Qed.

Lemma cleanEntries_cons (name : string) (child : node) (files : list (string * node)) :
  cleanEntries ((name, child) :: files)
  = match snd (removeEmptyFolders child) with
    | Some child' => (name, child') :: cleanEntries files
    | None => cleanEntries files
    end.
Proof.
  unfold cleanEntries. cbn [flat_map fst snd].
  destruct (snd (removeEmptyFolders child)); reflexivity.
Qed.

Lemma cleanEntries_In (files : list (string * node)) (name : string) (child' : node) :
  In (name, child') (cleanEntries files)
  <-> exists child, In (name, child) files /\ snd (removeEmptyFolders child) = Some child'.
Proof.
  induction files as [|[name0 child0] files IH].
  - split; [intros [] | intros (child & [] & _)].
  - rewrite cleanEntries_cons. split.
    + destruct (snd (removeEmptyFolders child0)) as [c|] eqn:E.
      * intros [[= <- <-]|Hin].
        -- exists child0. split; [now left | exact E].
        -- apply IH in Hin as (child & Hin & Hc). exists child. split; [now right | exact Hc].
      * intros Hin. apply IH in Hin as (child & Hin & Hc). exists child. split; [now right | exact Hc].
    + intros (child & [[= -> ->]|Hin] & Hc).
      * rewrite Hc. now left.
      * assert (H : In (name, child') (cleanEntries files)) by (apply IH; now exists child).
        destruct (snd (removeEmptyFolders child0)); [now right | exact H].
Qed.

(** A node is removed exactly when no regular file lies at or below it, and
    what is left of a node holds no empty directory. *)
Lemma removeEmptyFolders_spec (n : node) :
  (snd (removeEmptyFolders n) = None <-> holdsFile n = false)
  /\ forall n', snd (removeEmptyFolders n) = Some n' -> hasEmptyDir n' = false.
Proof.
  induction n as [data|files IH] using node_induction.
  - split; [split; discriminate|]. intros n' [= <-]. reflexivity.
  - assert (Hclean : (cleanEntries files = []
                      <-> existsb (fun entry => holdsFile (snd entry)) files = false)
                     /\ existsb (fun entry => hasEmptyDir (snd entry)) (cleanEntries files)
                        = false).
    { induction files as [|[name child] files IHf]; [split; [split|]; reflexivity|].
      inversion IH as [|? ? [Hrem Hleft] IH']; subst. cbn [snd] in Hrem, Hleft.
      specialize (IHf IH') as [IHa IHb].
      rewrite cleanEntries_cons. cbn [existsb snd].
      destruct (snd (removeEmptyFolders child)) as [child'|] eqn:E.
      - split.
        + split; [discriminate|]. intros H. apply orb_false_elim in H as [H _].
          apply Hrem in H. discriminate.
        + cbn [existsb snd]. rewrite (Hleft child' eq_refl). exact IHb.
      - rewrite (proj1 Hrem eq_refl). cbn [orb]. split; assumption. }
    destruct Hclean as [Hempty Hnone].
    rewrite removeEmptyFolders_Dir. cbn [holdsFile].
    destruct files as [|entry files]; [split; [split; reflexivity | discriminate]|].
    destruct (cleanEntries (entry :: files)) as [|entry' files'] eqn:E; cbn [snd].
    + split; [split; [intros _; now apply Hempty | reflexivity] | discriminate].
    + split.
      * split; [discriminate|]. intros H. apply Hempty in H. discriminate.
      * intros n' [= <-]. cbn [hasEmptyDir]. exact Hnone.
Qed.

(** C9, amended.  [removeEmptyFolders] removes a directory exactly when,
    its entries having been cleaned in the same way, none is left; that
    is, exactly when no regular file lies below it.  What it leaves holds
    no empty directory.  This holds of every directory it is called on,
    the output root with which [build] calls it included: a root that ends
    up empty is removed as well. *)
Theorem remove_empty_folders_removes_what_ends_up_empty (files : list (string * node)) :
  (snd (removeEmptyFolders (Dir files)) = None <-> cleanEntries files = [])
  /\ (forall name child',
         In (name, child') (cleanEntries files)
         <-> exists child, In (name, child) files /\ snd (removeEmptyFolders child) = Some child')
  /\ (snd (removeEmptyFolders (Dir files)) = None <-> holdsFile (Dir files) = false)
  /\ (forall left, snd (removeEmptyFolders (Dir files)) = Some left ->
                   left = Dir (cleanEntries files) /\ hasEmptyDir left = false).
Proof.
  split; [|split; [|split]].
  - rewrite removeEmptyFolders_Dir. destruct files as [|entry files]; [split; reflexivity|].
    destruct (cleanEntries (entry :: files)); split; try reflexivity; discriminate.
  - intros name child'. apply cleanEntries_In.
  - apply removeEmptyFolders_spec.
  - intros left H. split; [|now apply (proj2 (removeEmptyFolders_spec (Dir files)))].
    rewrite removeEmptyFolders_Dir in H. destruct files as [|entry files]; [discriminate|].
    destruct (cleanEntries (entry :: files)); [discriminate|]. now injection H as <-.
Qed.

(** C9, as stated, fails: an output root that holds only empty directories
    is removed itself. *)
Lemma remove_empty_folders_removes_empty_root :
  removeEmptyFolders (Dir [("assets", Dir [("img", Dir [])])]) = (true, None).
Proof. reflexivity. Qed.

(** * Further properties *)

(** ** Splicing *)

Local Open Scope string_scope.

Lemma sliceFrom_all (n : nat) (s : string) : String.length s <= n -> sliceFrom n s = "".
Proof.
  revert s; induction n as [|n IH]; intros [|c s]; simpl; intros H;
    try reflexivity; try lia.
  apply IH. lia.
Qed.

Lemma sliceFrom_sliceTo_append (n : nat) (s x : string) :
  n <= String.length s -> sliceFrom n (sliceTo n s ++ x) = x.
Proof.
  intros H. rewrite sliceFrom_append_within by (rewrite length_sliceTo; lia).
  rewrite sliceFrom_all by (rewrite length_sliceTo; lia). reflexivity.
Qed.

Lemma length_spliceString (source withSlice : string) (start end_ : nat) :
  start <= String.length source ->
  String.length (spliceString source withSlice start end_)
  = start + String.length withSlice + (String.length source - end_).
Proof.
  intros Hstart. unfold spliceString.
  rewrite !length_append, length_sliceTo, length_sliceFrom. lia.
Qed.

(** X2.  [spliceString] changes the span and nothing else: when the span
    lies within the text, what stands before it and what stands after it
    are found again, unchanged, around the text put in. *)
Theorem splice_keeps_text_outside_span (source withSlice : string) (start end_ : nat) :
  start <= String.length source ->
  sliceTo start (spliceString source withSlice start end_) = sliceTo start source
  /\ sliceFrom (start + String.length withSlice) (spliceString source withSlice start end_)
     = sliceFrom end_ source
  /\ js_substring start (start + String.length withSlice)
                  (spliceString source withSlice start end_) = withSlice
  /\ String.length (spliceString source withSlice start end_)
     = start + String.length withSlice + (String.length source - end_).
Proof.
  intros Hstart. unfold spliceString.
  assert (L : String.length (sliceTo start source) = start)
    by (rewrite length_sliceTo; lia).
  split; [|split; [|split]].
  - rewrite sliceTo_append_within by lia. apply sliceTo_all. lia.
  - rewrite sliceFrom_add, sliceFrom_sliceTo_append by exact Hstart.
    apply sliceFrom_append_exact.
  - unfold js_substring. rewrite Nat.min_l, Nat.max_r by lia.
    rewrite sliceFrom_sliceTo_append by exact Hstart.
    replace (start + String.length withSlice - start) with (String.length withSlice) by lia.
    apply sliceTo_append_exact.
  - rewrite !length_append, L, length_sliceFrom. lia.
Qed.

Lemma splice_keeps_text_outside_span_witness :
  sliceTo 7 (spliceString "import './a.js';" "'/dist/a.js'" 7 15) = sliceTo 7 "import './a.js';"
  /\ sliceFrom (7 + 12) (spliceString "import './a.js';" "'/dist/a.js'" 7 15)
     = sliceFrom 15 "import './a.js';"
  /\ js_substring 7 (7 + 12) (spliceString "import './a.js';" "'/dist/a.js'" 7 15)
     = "'/dist/a.js'"
  /\ String.length (spliceString "import './a.js';" "'/dist/a.js'" 7 15) = 7 + 12 + (16 - 15).
Proof.
  apply (splice_keeps_text_outside_span "import './a.js';" "'/dist/a.js'" 7 15).
  simpl. lia.
Defined.

(** ** Rewriting a script *)

Lemma sliceFrom_sliceTo (a b : nat) (s : string) :
  a <= b -> sliceFrom a (sliceTo b s) = sliceTo (b - a) (sliceFrom a s).
Proof.
  revert b s; induction a as [|a IH]; intros b s H; simpl.
  - now rewrite Nat.sub_0_r.
  - destruct b as [|b]; [lia|]. destruct s as [|c s]; simpl.
    + now destruct (b - a).
    + apply IH. lia.
Qed.

Lemma js_substring_sliceTo_append (a b : nat) (code tail : string) :
  a <= b -> b <= String.length code ->
  js_substring a b (sliceTo b code ++ tail) = js_substring a b code.
Proof.
  intros Hab Hb. unfold js_substring. rewrite Nat.min_l, Nat.max_r by lia.
  rewrite sliceFrom_append_within by (rewrite length_sliceTo; lia).
  rewrite sliceFrom_sliceTo by exact Hab.
  rewrite sliceTo_append_within by (rewrite length_sliceTo, length_sliceFrom; lia).
  apply sliceTo_sliceTo. lia.
Qed.

Lemma wellSpaced_bound (records : list ImportSpecifier) (pos len : nat) :
  wellSpaced pos records len -> pos <= len.
Proof.
  revert pos; induction records as [|imp records IH]; intros pos; cbn [wellSpaced];
    [trivial|].
  intros (A & B & C). specialize (IH _ C). lia.
Qed.

Lemma wellSpaced_weaken (records : list ImportSpecifier) (pos pos' len : nat) :
  pos' <= pos -> wellSpaced pos records len -> wellSpaced pos' records len.
Proof.
  destruct records as [|imp records]; cbn [wellSpaced]; [lia|].
  intros H (A & B & C). repeat split; [lia | exact B | exact C].
Qed.

Lemma wellSpaced_filter (keep : ImportSpecifier -> bool) (records : list ImportSpecifier)
      (pos len : nat) :
  wellSpaced pos records len -> wellSpaced pos (filter keep records) len.
Proof.
  revert pos; induction records as [|imp records IH]; intros pos; [trivial|].
  cbn [wellSpaced filter]. intros (A & B & C).
  destruct (keep imp); cbn [wellSpaced].
  - repeat split; [exact A | exact B | apply IH, C].
  - apply (wellSpaced_weaken _ (imp_e imp)); [lia | apply IH, C].
Qed.

Section RewriteSpans.

Variable matchDynamicImportValue : string -> option string.
Variable replaceImport : string -> string.

(** The turn of the loop for a record, once the records after it have been
    dealt with: the text up to the end of its span is still the original. *)
Lemma esmStep_after_later_records (code tail : string) (imp : ImportSpecifier) :
  imp_s imp <= imp_e imp -> imp_e imp <= String.length code ->
  esmStep matchDynamicImportValue replaceImport (sliceTo (imp_e imp) code ++ tail) imp
  = sliceTo (imp_s imp) code
    ++ rewrittenImportOf matchDynamicImportValue replaceImport code imp ++ tail.
Proof.
  intros Hse He. unfold esmStep, spliceString, rewrittenImportOf.
  rewrite js_substring_sliceTo_append by assumption.
  rewrite sliceTo_append_within by (rewrite length_sliceTo; lia).
  rewrite sliceTo_sliceTo by exact Hse.
  rewrite sliceFrom_sliceTo_append by exact He.
  reflexivity.
Qed.

Lemma esm_fold_rewriteSpans (code : string) (records : list ImportSpecifier) :
  forall pos,
    wellSpaced pos records (String.length code) ->
    fold_left (esmStep matchDynamicImportValue replaceImport) (rev records) code
    = sliceTo pos code ++ rewriteSpans matchDynamicImportValue replaceImport code pos records.
Proof.
  induction records as [|imp records IH]; intros pos; cbn [wellSpaced rewriteSpans rev].
  - intros _. cbn [fold_left]. now rewrite sliceTo_sliceFrom.
  - intros (Hpos & Hse & Hrest).
    rewrite fold_left_app, (IH _ Hrest). cbn [fold_left].
    rewrite esmStep_after_later_records
      by (try exact Hse; apply (wellSpaced_bound _ _ _ Hrest)).
    replace (sliceTo (imp_s imp) code)
      with (sliceTo pos code ++ js_substring pos (imp_s imp) code).
    + now rewrite append_assoc.
    + unfold js_substring. rewrite Nat.min_l, Nat.max_r by lia.
      rewrite <- sliceTo_add. f_equal. lia.
Qed.

End RewriteSpans.

(** X1.  When the records that the lexer answers lie one after the other
    within the script, [transformEsmImports] gives the script with the
    span of each record kept by the scan replaced by what the rewriter
    emits for that span of the original text, and every other character
    left as it is: working from the last record to the first keeps the
    offsets of the records still to do valid. *)
Theorem transformEsmImports_rewrites_each_span
        (parse : string -> string + list ImportSpecifier)
        (matchDynamicImportValue : string -> option string)
        (code : string) (replaceImport : string -> string)
        (records : list ImportSpecifier) :
  parse code = inr records ->
  wellSpaced 0 records (String.length code) ->
  exists scanned,
    scanCodeImportsExports parse matchDynamicImportValue code = Return scanned
    /\ transformEsmImports parse matchDynamicImportValue code replaceImport
       = Return (rewriteSpans matchDynamicImportValue replaceImport code 0 scanned).
Proof.
  intros Hparse Hspaced.
  unfold transformEsmImports, scanCodeImportsExports. rewrite Hparse. cbn [bind].
  eexists. split; [reflexivity|]. f_equal.
  apply (esm_fold_rewriteSpans matchDynamicImportValue replaceImport code _ 0).
  apply wellSpaced_filter, Hspaced.
Qed.

(** A script with a static import, an [import.meta], which the scan drops,
    and a dynamic import. *)
Lemma transformEsmImports_rewrites_each_span_witness :
  exists scanned,
    scanCodeImportsExports
      (sampleParse "import './a.js';import.meta.url;import('./b.js')"
                   [mkImport 8 14 (-1); mkImport 16 27 (-2); mkImport 39 47 32])
      (sampleDynamicValue "'./b.js'" "./b.js")
      "import './a.js';import.meta.url;import('./b.js')"
    = Return scanned
    /\ transformEsmImports
         (sampleParse "import './a.js';import.meta.url;import('./b.js')"
                      [mkImport 8 14 (-1); mkImport 16 27 (-2); mkImport 39 47 32])
         (sampleDynamicValue "'./b.js'" "./b.js")
         "import './a.js';import.meta.url;import('./b.js')"
         (fun x => "/dist" ++ sliceFrom 1 x)
       = Return (rewriteSpans (sampleDynamicValue "'./b.js'" "./b.js")
                              (fun x => "/dist" ++ sliceFrom 1 x)
                              "import './a.js';import.meta.url;import('./b.js')" 0 scanned).
Proof.
  apply (transformEsmImports_rewrites_each_span
           _ _ _ _ [mkImport 8 14 (-1); mkImport 16 27 (-2); mkImport 39 47 32]).
  - reflexivity.
  - cbn. lia.
Defined.

(** ** Rewriting a stylesheet *)

Lemma indexOf_of_prefix_later (p s : string) (j : nat) :
  p <> "" -> prefix p (sliceFrom j s) = true -> indexOf p s <> None.
Proof.
  intros Hp. revert s; induction j as [|j IH]; intros s H.
  - cbn [sliceFrom] in H. destruct s; cbn [indexOf]; rewrite H; discriminate.
  - destruct s as [|c s].
    + cbn [sliceFrom] in H. destruct p; [now elim Hp | cbn in H; discriminate].
    + cbn [sliceFrom] in H. cbn [indexOf].
      destruct (prefix p (String c s)); [discriminate|].
      specialize (IH s H). destruct (indexOf p s); [discriminate | now elim IH].
Qed.

Lemma CSS_REGEX_needs_import (s : string) (lastIndex : nat) (m : RegExpExecArray) :
  CssRegex.CSS_REGEX s lastIndex = Some m -> indexOf "@import" s <> None.
Proof.
  unfold CssRegex.CSS_REGEX. destruct (_ <? _)%nat; [discriminate|]. intros H.
  destruct (search_spec _ _ _ H) as (j & len & spec & _ & Hm & _).
  rewrite <- sliceFrom_add in Hm. unfold CssRegex.matchHere in Hm.
  destruct (prefix "@import" (sliceFrom (lastIndex + j) s)) eqn:E; [|discriminate].
  apply (indexOf_of_prefix_later "@import" s (lastIndex + j)); [discriminate | exact E].
Qed.

(** X3.  A stylesheet in which the text [@import] does not occur comes back
    unchanged, whatever the replacement function, at the first test of the
    loop. *)
Theorem css_without_import_unchanged (code : string) (replaceImport : string -> string)
        (fuel : nat) :
  indexOf "@import" code = None ->
  transformCssImports (S fuel) code replaceImport = Return code.
Proof.
  intros Hnone. unfold transformCssImports. cbn [cssLoop].
  destruct (CssRegex.CSS_REGEX code 0) as [m|] eqn:Hm; [|reflexivity].
  now apply CSS_REGEX_needs_import in Hm.
Qed.

Lemma css_without_import_unchanged_witness :
  transformCssImports 1 "body { color: red; }" (fun x => "/dist/" ++ x)
  = Return "body { color: red; }".
Proof.
  apply (css_without_import_unchanged "body { color: red; }" (fun x => "/dist/" ++ x) 0).
  reflexivity.
Defined.

Lemma replaceFirst_at (pat rep s : string) (k : nat) :
  indexOf pat s = Some k ->
  replaceFirst pat rep s = sliceTo k s ++ rep ++ sliceFrom (k + String.length pat) s.
Proof.
  revert k; induction s as [|c s IH]; intros k.
  - cbn [indexOf replaceFirst]. destruct (prefix pat ""); [|discriminate].
    intros [= <-]. reflexivity.
  - cbn [indexOf replaceFirst]. destruct (prefix pat (String c s)).
    + intros [= <-]. reflexivity.
    + destruct (indexOf pat s) as [k'|]; [|discriminate]. intros [= <-].
      cbn [sliceTo Nat.add sliceFrom append]. now rewrite (IH k' eq_refl).
Qed.

Lemma replaceFirst_absent (pat rep s : string) :
  indexOf pat s = None -> replaceFirst pat rep s = s.
Proof.
  induction s as [|c s IH].
  - cbn [indexOf replaceFirst]. destruct (prefix pat ""); [discriminate | reflexivity].
  - cbn [indexOf replaceFirst]. destruct (prefix pat (String c s)); [discriminate|].
    destruct (indexOf pat s); [discriminate|]. intros _. now rewrite IH.
Qed.

(** X4.  The rule emitted for a specifier holds the replacement itself
    when [.proxy.js] does not occur in it, and the replacement less its
    proxy suffix when [.proxy.js] occurs in it at its end and nowhere
    before. *)
Theorem css_rule_strips_a_lone_proxy_suffix
        (replaceImport : string -> string) (spec base : string) :
  (indexOf ".proxy.js" (replaceImport spec) = None ->
   cssRule replaceImport spec = "@import " ++ dquote ++ replaceImport spec ++ dquote ++ ";")
  /\ (replaceImport spec = base ++ ".proxy.js" ->
      indexOf ".proxy.js" (base ++ ".proxy.js") = Some (String.length base) ->
      cssRule replaceImport spec = "@import " ++ dquote ++ base ++ dquote ++ ";").
Proof.
  unfold cssRule. split.
  - intros H. now rewrite (replaceFirst_absent _ _ _ H).
  - intros E H. rewrite E, (replaceFirst_at _ _ _ _ H).
    rewrite sliceTo_append_exact, sliceFrom_add, sliceFrom_append_exact.
    cbn [String.length sliceFrom append]. now rewrite append_empty_r.
Qed.

Lemma css_rule_strips_a_lone_proxy_suffix_witness :
  cssRule (fun x => "/dist/" ++ x ++ ".proxy.js") "x.css"
  = "@import " ++ dquote ++ "/dist/x.css" ++ dquote ++ ";".
Proof.
  apply (proj2 (css_rule_strips_a_lone_proxy_suffix
                  (fun x => "/dist/" ++ x ++ ".proxy.js") "x.css" "/dist/x.css"));
    reflexivity.
Defined.

Lemma length_replaceFirst_empty (pat s : string) :
  String.length (replaceFirst pat "" s) <= String.length s.
Proof.
  induction s as [|c s IH]; cbn [replaceFirst].
  - destruct (prefix pat ""); cbn; [rewrite length_sliceFrom; cbn; lia | lia].
  - destruct (prefix pat (String c s)).
    + cbn [append]. rewrite length_sliceFrom. lia.
    + cbn [String.length]. lia.
Qed.

Lemma matchHere_spec_length (t : string) (len : nat) (spec : string) :
  CssRegex.matchHere t = Some (len, spec) -> 10 + String.length spec <= len.
Proof.
  unfold CssRegex.matchHere.
  destruct (prefix "@import" t); [|discriminate].
  set (w := CssRegex.countSpaces (sliceFrom 7 t)).
  destruct (sliceFrom (7 + w) t) as [|q body] eqn:E; [discriminate|].
  destruct (CssRegex.isQuote q); [|discriminate].
  destruct (CssRegex.findClose body) as [k|] eqn:F; [|discriminate].
  intros [= <- <-]. rewrite length_sliceTo. lia.
Qed.

Lemma CSS_REGEX_spec_length (s : string) (lastIndex : nat) (m : RegExpExecArray) :
  CssRegex.CSS_REGEX s lastIndex = Some m ->
  10 + String.length (group 1 m) <= String.length (group 0 m).
Proof.
  intros H. pose proof (CSS_REGEX_spec _ _ _ H) as (_ & _ & Hin & _).
  unfold CssRegex.CSS_REGEX in H. destruct (_ <? _)%nat; [discriminate|].
  destruct (search_spec _ _ _ H) as (j & len & spec & Hi & Hm & Hg).
  pose proof (matchHere_bound _ _ _ Hm) as Hb.
  apply matchHere_spec_length in Hm.
  unfold group in *. rewrite Hg in *. cbn [nth] in *.
  rewrite length_sliceTo in *. lia.
Qed.

(** X5.  The loop of the stylesheet rewriter comes to an end, within as
    many turns as the stylesheet has characters, when the replacement
    function gives for every specifier a text at most twice as long, plus
    eight: each turn then moves [lastIndex] on by more than the text has
    grown. *)
Theorem css_rewrite_terminates_for_bounded_replacements
        (replaceImport : string -> string) (code : string) :
  (forall spec, String.length (replaceImport spec) <= 2 * String.length spec + 8) ->
  exists rewritten,
    transformCssImports (S (String.length code)) code replaceImport = Return rewritten.
Proof.
  intros Hbound. unfold transformCssImports.
  assert (G : forall fuel code lastIndex,
             String.length code - lastIndex < fuel ->
             exists rewritten, cssLoop fuel replaceImport code lastIndex = Return rewritten).
  { induction fuel as [|fuel IH]; intros code' lastIndex Hfuel; [lia|].
    cbn [cssLoop].
    destruct (CssRegex.CSS_REGEX code' lastIndex) as [m|] eqn:Hm; [|now eexists].
    cbv zeta. apply IH.
    pose proof (CSS_REGEX_spec _ _ _ Hm) as (Hle & Hten & Hin & _).
    pose proof (CSS_REGEX_spec_length _ _ _ Hm) as Hlen.
    pose proof (length_spliceString
                  code' (cssRule replaceImport (group 1 m)) (index m)
                  (index m + String.length (group 0 m)) ltac:(lia)) as L.
    rewrite L. unfold lastIndexAfter.
    assert (Hrule : String.length (cssRule replaceImport (group 1 m))
                    <= 19 + 2 * String.length (group 1 m)).
    { unfold cssRule. rewrite !length_append.
      pose proof (length_replaceFirst_empty ".proxy.js" (replaceImport (group 1 m))).
      specialize (Hbound (group 1 m)). cbn [String.length dquote]. lia. }
    lia. }
  apply G. lia.
Qed.

Lemma css_rewrite_terminates_for_bounded_replacements_witness :
  exists rewritten,
    transformCssImports (S (String.length "@import'a.css';@import 'b.css';"))
                        "@import'a.css';@import 'b.css';" identity
    = Return rewritten.
Proof.
  apply (css_rewrite_terminates_for_bounded_replacements identity).
  intros spec. unfold identity. lia.
Defined.

Lemma length_copies (k : nat) (s : string) :
  String.length (copies k s) = k * String.length s.
Proof.
  induction k as [|k IH]; cbn [copies]; [reflexivity|].
  rewrite length_append, IH. lia.
Qed.

(** X6.  The loop of the stylesheet rewriter need not come to an end: with
    a replacement function whose text holds a rule of its own, each turn
    finds, after the rule just matched, the rule just written, and no fuel
    is enough. *)
Theorem css_rewrite_can_run_forever (fuel : nat) :
  transformCssImports fuel ("@import " ++ dquote ++ "a" ++ dquote ++ ";") growingReplacement
  = OutOfFuel.
Proof.
  set (rule := "@import " ++ dquote ++ "a" ++ dquote ++ ";").
  assert (G : forall fuel k,
             cssLoop fuel growingReplacement (copies (S k) rule) (12 * k) = OutOfFuel).
  { clear fuel. induction fuel as [|fuel IH]; intros k; [reflexivity|].
    cbn [cssLoop].
    assert (Hlen : String.length (copies k rule) = 12 * k)
      by (rewrite length_copies; cbn; lia).
    assert (Hm : CssRegex.CSS_REGEX (copies (S k) rule) (12 * k)
                 = Some (mkMatch (12 * k) [rule; "a"])).
    { unfold CssRegex.CSS_REGEX.
      replace (String.length (copies (S k) rule) <? 12 * k)%nat with false
        by (symmetry; apply Nat.ltb_ge; rewrite length_copies; cbn; lia).
      cbn [copies]. rewrite <- Hlen at 1. rewrite sliceFrom_append_exact.
      reflexivity. }
    rewrite Hm. cbv zeta. unfold lastIndexAfter, group. cbn [index groups nth].
    replace (spliceString (copies (S k) rule) (cssRule growingReplacement "a") (12 * k)
                          (12 * k + String.length rule))
      with (copies (S (S k)) rule).
    - replace (12 * k + String.length rule) with (12 * S k) by (cbn; lia). apply IH.
    - unfold spliceString. cbn [copies].
      rewrite <- Hlen at 1. rewrite sliceTo_append_exact.
      rewrite sliceFrom_all by (rewrite length_append, Hlen; cbn; lia).
      rewrite append_assoc. reflexivity. }
  exact (G fuel 0).
Qed.

(** ** What a flush does *)

Local Open Scope list_scope.

Section FlushEffects.

Variable env : Collaborators.
Variable config : SnowpackConfig.
Variable ignorePkg : bool.
Variable loadOptions : LoadUrlOptions.

(** The two ways in which a turn of the loop returns. *)
Lemma flushBody_cases (st st' : BuildSession) :
  allFileUrlsToProcess st <> [] ->
  flushBody env config ignorePkg loadOptions st = Return st' ->
  exists u rest,
    allFileUrlsToProcess st = rest ++ [u] /\
    ((passedOver env config ignorePkg u = true /\ st' = withToProcess rest st)
     \/ (passedOver env config ignorePkg u = false /\
         exists result added,
           loadUrl env u loadOptions = inr result /\
           trace st' = trace st ++ crawlEvents env config loadOptions u /\
           allFileUrlsUnique st' = allFileUrlsUnique st ++ added /\
           allFileUrlsToProcess st' = rest ++ added /\
           (forall v, In v added -> ~ In v (allFileUrlsUnique st)) /\
           (forall v, In v (result_imports result) -> startsWith "/" v = true ->
                      In v (allFileUrlsUnique st')) /\
           (forall v, In v (result_imports result) -> startsWith "/" v = false ->
                      In v (allBareModuleSpecifiers st')) /\
           (forall v, In v (allBareModuleSpecifiers st) ->
                      In v (allBareModuleSpecifiers st')) /\
           (forall v, In v (allBareModuleSpecifiers st') ->
                      In v (allBareModuleSpecifiers st) \/ startsWith "/" v = false) /\
           (NoDup (allBareModuleSpecifiers st) -> NoDup (allBareModuleSpecifiers st')))).
Proof.
  intros Hne H. pose proof (app_removelast_last EmptyString Hne) as Hsplit.
  exists (last (allFileUrlsToProcess st) EmptyString), (removelast (allFileUrlsToProcess st)).
  split; [exact Hsplit|].
  unfold flushBody, passedOver in *. cbv zeta in H.
  destruct (ignorePkg && _); [left; split; [reflexivity | now injection H as <-]|].
  right. split; [reflexivity|].
  destruct (loadUrl env _ loadOptions) as [e|result] eqn:Hload;
    cbn [settle bind] in H; [discriminate|].
  destruct (fs_mkdirp env _) as [e|[]]; cbn [settle bind] in H; [discriminate|].
  destruct (fs_writeFile env _ _) as [e|[]]; cbn [settle bind] in H; [discriminate|].
  injection H as <-.
  match goal with |- context [fold_left enqueueImport ?l ?s] =>
    destruct (enqueue_fold_spec l s) as (added & Hu & Hq & _ & Hnew & Hall & Ht & _);
    destruct (enqueue_fold_bare l s) as (Ba & Bb & Bc & Bd)
  end.
  cbn in Hu, Hq, Hnew, Hall, Ht, Ba, Bb, Bc, Bd.
  exists result, added. split; [reflexivity|]. split.
  { rewrite Ht. unfold crawlEvents. rewrite Hload. rewrite <- !app_assoc. reflexivity. }
  split; [exact Hu|]. split; [exact Hq|]. split; [intros v Hv; now apply Hnew|].
  split; [intros v Hv Hs; rewrite Hu; now apply Hall|].
  split; [exact Ba|]. split; [exact Bb|]. split; [|exact Bd].
  intros v Hv. destruct (Bc v Hv) as [A|[_ A]]; [now left | now right].
Qed.

Lemma flushLoop_effects (fuel : nat) :
  forall st st',
    flushLoop env config fuel ignorePkg loadOptions st = Return st' ->
    exists new,
      trace st' = trace st ++ new /\
      new = flat_map (crawlEvents env config loadOptions) (loadedUrls new) /\
      (forall u, In u (loadedUrls new) ->
                 passedOver env config ignorePkg u = false /\
                 (In u (allFileUrlsToProcess st)
                  \/ (In u (allFileUrlsUnique st') /\ ~ In u (allFileUrlsUnique st))) /\
                 exists result,
                   loadUrl env u loadOptions = inr result /\
                   (forall v, In v (result_imports result) -> startsWith "/" v = true ->
                              In v (allFileUrlsUnique st')) /\
                   (forall v, In v (result_imports result) -> startsWith "/" v = false ->
                              In v (allBareModuleSpecifiers st'))) /\
      (forall u, In u (allFileUrlsToProcess st) ->
                 passedOver env config ignorePkg u = false -> In u (loadedUrls new)) /\
      (forall u, In u (allFileUrlsUnique st') -> ~ In u (allFileUrlsUnique st) ->
                 passedOver env config ignorePkg u = false -> In u (loadedUrls new)) /\
      (forall v, In v (allFileUrlsUnique st) -> In v (allFileUrlsUnique st')) /\
      (forall v, In v (allBareModuleSpecifiers st) -> In v (allBareModuleSpecifiers st')) /\
      (forall v, In v (allBareModuleSpecifiers st') ->
                 In v (allBareModuleSpecifiers st) \/ startsWith "/" v = false) /\
      (NoDup (allBareModuleSpecifiers st) -> NoDup (allBareModuleSpecifiers st')).
Proof.
  induction fuel as [|fuel IH]; intros st st'; [discriminate|].
  cbn [flushLoop].
  destruct (allFileUrlsToProcess st) as [|q0 qs] eqn:Hqueue.
  - intros [= <-]. exists []. rewrite app_nil_r.
    split; [reflexivity|]. split; [reflexivity|]. split; [intros u []|].
    split; [intros u []|]. split; [intros u Hu Hn; contradiction|].
    split; [auto|]. split; [auto|]. split; auto.
  - assert (Hne : allFileUrlsToProcess st <> []) by (rewrite Hqueue; discriminate).
    rewrite <- Hqueue.
    destruct (flushBody env config ignorePkg loadOptions st) as [st1| |] eqn:Hbody;
      cbn [bind]; try discriminate.
    intros Hrest.
    destruct (IH _ _ Hrest) as (new1 & Ht1 & Hflat1 & Hload1 & Hq1 & Ha1 & Hu1 & Hb1 & Hb1' & Hnd1).
    destruct (flushBody_cases _ _ Hne Hbody) as (u & rest & Hsplit & [[Hskip ->]|Hcase]).
    + (* the URL is passed over *)
      cbn in Ht1, Hload1, Hq1, Ha1, Hu1, Hb1, Hb1', Hnd1.
      exists new1. split; [exact Ht1|]. split; [exact Hflat1|]. split.
      { intros w Hw. destruct (Hload1 w Hw) as (A & [B|B] & C).
        - split; [exact A|]. split; [|exact C]. left. rewrite Hsplit.
          apply in_app_iff. now left.
        - split; [exact A|]. split; [now right | exact C]. }
      split.
      { intros w Hw Hn. rewrite Hsplit in Hw. apply in_app_iff in Hw as [Hw|[<-|[]]].
        - now apply Hq1.
        - congruence. }
      split; [exact Ha1|]. split; [exact Hu1|]. split; [exact Hb1|]. split; assumption.
    + (* the URL is loaded *)
      destruct Hcase as (Hskip & result & added & Hload & Ht0 & Hu0 & Hq0 & Hnew0
                         & Hloc0 & Hbare0 & Hb0 & Hb0' & Hnd0).
      assert (Hevents : crawlEvents env config loadOptions u
                        = [EvLoadUrl u loadOptions;
                           EvMkdirp (path_dirname env
                                       (path_join env (buildDirectoryLoc config) u));
                           EvWriteFile (path_join env (buildDirectoryLoc config) u)
                                       (result_contents result)])
        by (unfold crawlEvents; now rewrite Hload).
      exists (crawlEvents env config loadOptions u ++ new1).
      assert (Hloaded : loadedUrls (crawlEvents env config loadOptions u ++ new1)
                        = u :: loadedUrls new1)
        by (rewrite Hevents; reflexivity).
      split; [rewrite Ht1, Ht0, app_assoc; reflexivity|].
      split; [rewrite Hloaded; cbn [flat_map]; now rewrite <- Hflat1|].
      rewrite Hloaded. split.
      { intros w [<-|Hw].
        - split; [exact Hskip|]. split.
          + left. rewrite Hsplit. apply in_app_iff. right. now left.
          + exists result. split; [exact Hload|]. split.
            * intros v Hv Hs. apply Hu1, (Hloc0 v Hv Hs).
            * intros v Hv Hs. apply Hb1, (Hbare0 v Hv Hs).
        - destruct (Hload1 w Hw) as (A & B & C). split; [exact A|]. split; [|exact C].
          destruct B as [B|[B B']].
          + rewrite Hq0 in B. apply in_app_iff in B as [B|B].
            * left. rewrite Hsplit. apply in_app_iff. now left.
            * right. split; [|now apply Hnew0].
              apply Hu1. rewrite Hu0. apply in_app_iff. now right.
          + right. split; [exact B|]. intros Hin. apply B'. rewrite Hu0.
            apply in_app_iff. now left. }
      split.
      { intros w Hw Hn. rewrite Hsplit in Hw. apply in_app_iff in Hw as [Hw|[<-|[]]].
        - right. apply Hq1; [|exact Hn]. rewrite Hq0. apply in_app_iff. now left.
        - now left. }
      split.
      { intros w Hw Hnot Hn. right.
        destruct (in_dec string_dec w (allFileUrlsUnique st1)) as [Hin|Hout].
        - apply Hq1; [|exact Hn]. rewrite Hq0. apply in_app_iff. right.
          rewrite Hu0 in Hin. apply in_app_iff in Hin as [Hin|Hin]; [contradiction | exact Hin].
        - now apply Ha1. }
      split.
      { intros v Hv. apply Hu1. rewrite Hu0. apply in_app_iff. now left. }
      split; [intros v Hv; apply Hb1, Hb0, Hv|]. split.
      { intros v Hv. destruct (Hb1' v Hv) as [A|A]; [now apply Hb0' | now right]. }
      intros Hnd. apply Hnd1, Hnd0, Hnd.
Qed.

(** A property of URLs that the roots have, and that passes from a URL to
    its local imports, holds of all that a flush discovers. *)
Lemma flushLoop_preserves (P : string -> Prop) (fuel : nat) :
  (forall u result v,
      P u -> loadUrl env u loadOptions = inr result ->
      In v (result_imports result) -> startsWith "/" v = true -> P v) ->
  forall st st',
    flushLoop env config fuel ignorePkg loadOptions st = Return st' ->
    (forall u, In u (allFileUrlsToProcess st) -> P u) ->
    (forall u, In u (allFileUrlsUnique st) -> P u) ->
    forall u, In u (allFileUrlsUnique st') -> P u.
Proof.
  intros Hclosed. induction fuel as [|fuel IH]; intros st st'; [discriminate|].
  cbn [flushLoop].
  destruct (allFileUrlsToProcess st) as [|q0 qs] eqn:Hqueue.
  - intros [= <-] _ HP. exact HP.
  - assert (Hne : allFileUrlsToProcess st <> []) by (rewrite Hqueue; discriminate).
    rewrite <- Hqueue.
    destruct (flushBody env config ignorePkg loadOptions st) as [st1| |] eqn:Hbody;
      cbn [bind]; try discriminate.
    intros Hrest HQ HP.
    pose proof (flushBody_spec _ _ _ _ _ _ Hbody)
      as (added & _ & Hu & Hq & _ & _ & Hfrom & _).
    pose proof (app_removelast_last EmptyString Hne) as Hsplit.
    assert (Hlast : In (last (allFileUrlsToProcess st) EmptyString) (allFileUrlsToProcess st)).
    { rewrite Hsplit at 2. apply in_app_iff. right. now left. }
    assert (Hadded : forall v, In v added -> P v).
    { intros v Hv. destruct (Hfrom v Hv) as (result & Hload & Hin & Hs).
      apply (Hclosed _ _ _ (HQ _ Hlast) Hload Hin Hs). }
    apply (IH _ _ Hrest).
    + intros w Hw. rewrite Hq in Hw. apply in_app_iff in Hw as [Hw|Hw]; [|now apply Hadded].
      apply HQ. rewrite Hsplit. apply in_app_iff. now left.
    + intros w Hw. rewrite Hu in Hw. apply in_app_iff in Hw as [Hw|Hw];
        [now apply HP | now apply Hadded].
Qed.

End FlushEffects.

(** X7.  A flush that returns has loaded exactly the URLs that it found in
    the queue, or discovered on its way, and that it does not pass over as
    package URLs. *)
Theorem flush_loads_what_is_queued_or_discovered
        (env : Collaborators) (config : SnowpackConfig) (fuel : nat) (ignorePkg : bool)
        (loadOptions : LoadUrlOptions) (st st' : BuildSession) :
  flushFileQueue env config fuel ignorePkg loadOptions st = Return st' ->
  exists new,
    trace st' = trace st ++ EvFlush ignorePkg loadOptions (allFileUrlsToProcess st) :: new
    /\ forall u,
      In u (loadedUrls new)
      <-> passedOver env config ignorePkg u = false
          /\ (In u (allFileUrlsToProcess st)
              \/ (In u (allFileUrlsUnique st') /\ ~ In u (allFileUrlsUnique st))).
Proof.
  unfold flushFileQueue. intros Hflush.
  destruct (flushLoop_effects _ _ _ _ _ _ _ Hflush)
    as (new & Ht & _ & Hload & Hq & Ha & _).
  cbn in Ht, Hload, Hq, Ha.
  exists new. split; [rewrite Ht, <- app_assoc; reflexivity|].
  intros u. split.
  - intros Hu. destruct (Hload u Hu) as (A & B & _). now split.
  - intros (Hn & [Hin|[Hin Hnot]]); [now apply Hq | now apply Ha].
Qed.

Lemma flush_loads_what_is_queued_or_discovered_witness :
  exists st' new,
    flushFileQueue (sampleCollaborators sampleLoad ["src/index.html"]) (sampleConfig false)
                   3 false (mkLoadOptions false false false None) sampleSession = Return st'
    /\ trace st'
       = trace sampleSession
         ++ EvFlush false (mkLoadOptions false false false None) ["/index.html"] :: new
    /\ (In "/a.js" (loadedUrls new)
        <-> passedOver (sampleCollaborators sampleLoad ["src/index.html"]) (sampleConfig false)
                       false "/a.js" = false
            /\ (In "/a.js" (allFileUrlsToProcess sampleSession)
                \/ (In "/a.js" (allFileUrlsUnique st')
                    /\ ~ In "/a.js" (allFileUrlsUnique sampleSession)))).
Proof.
  destruct (flushFileQueue (sampleCollaborators sampleLoad ["src/index.html"])
                           (sampleConfig false) 3 false
                           (mkLoadOptions false false false None) sampleSession)
    as [st'|e|] eqn:Hrun;
    [|vm_compute in Hrun; discriminate | vm_compute in Hrun; discriminate].
  destruct (flush_loads_what_is_queued_or_discovered _ _ _ _ _ _ _ Hrun) as (new & Ht & H).
  exists st', new. split; [reflexivity|]. split; [exact Ht | apply H].
Defined.

(** X8.  After a flush that returns, each local import of each file that
    the flush has loaded is in the discovered set and each bare import is
    in the set of bare specifiers; that set keeps what it held, and keeps
    holding bare specifiers only, each once. *)
Theorem flush_collects_the_imports_of_what_it_loads
        (env : Collaborators) (config : SnowpackConfig) (fuel : nat) (ignorePkg : bool)
        (loadOptions : LoadUrlOptions) (st st' : BuildSession) :
  flushFileQueue env config fuel ignorePkg loadOptions st = Return st' ->
  (exists new,
      trace st' = trace st ++ EvFlush ignorePkg loadOptions (allFileUrlsToProcess st) :: new
      /\ forall u, In u (loadedUrls new) ->
                   exists result,
                     loadUrl env u loadOptions = inr result /\
                     (forall v, In v (result_imports result) -> startsWith "/" v = true ->
                                In v (allFileUrlsUnique st')) /\
                     (forall v, In v (result_imports result) -> startsWith "/" v = false ->
                                In v (allBareModuleSpecifiers st')))
  /\ (forall v, In v (allBareModuleSpecifiers st) -> In v (allBareModuleSpecifiers st'))
  /\ ((forall v, In v (allBareModuleSpecifiers st) -> startsWith "/" v = false) ->
      forall v, In v (allBareModuleSpecifiers st') -> startsWith "/" v = false)
  /\ (NoDup (allBareModuleSpecifiers st) -> NoDup (allBareModuleSpecifiers st')).
Proof.
  unfold flushFileQueue. intros Hflush.
  destruct (flushLoop_effects _ _ _ _ _ _ _ Hflush)
    as (new & Ht & _ & Hload & _ & _ & _ & Hb & Hb' & Hnd).
  cbn in Ht, Hload, Hb, Hb', Hnd.
  split; [|split; [exact Hb | split; [|exact Hnd]]].
  - exists new. split; [rewrite Ht, <- app_assoc; reflexivity|].
    intros u Hu. now destruct (Hload u Hu) as (_ & _ & C).
  - intros Hall v Hv. destruct (Hb' v Hv) as [A|A]; [now apply Hall | exact A].
Qed.

(** The crawl of the sample site: [/index.html] and [/a.js] are loaded;
    [/a.js], which both import, is discovered and [lodash] is collected. *)
Lemma flush_collects_the_imports_of_what_it_loads_witness :
  exists st',
    flushFileQueue (sampleCollaborators sampleLoad ["src/index.html"]) (sampleConfig false)
                   3 false (mkLoadOptions false false false None) sampleSession = Return st'
    /\ (exists new,
           trace st'
           = trace sampleSession
             ++ EvFlush false (mkLoadOptions false false false None)
                        (allFileUrlsToProcess sampleSession) :: new
           /\ forall u, In u (loadedUrls new) ->
                        exists result,
                          sampleLoad u (mkLoadOptions false false false None) = inr result /\
                          (forall v, In v (result_imports result) -> startsWith "/" v = true ->
                                     In v (allFileUrlsUnique st')) /\
                          (forall v, In v (result_imports result) -> startsWith "/" v = false ->
                                     In v (allBareModuleSpecifiers st')))
    /\ (forall v, In v (allBareModuleSpecifiers st') -> startsWith "/" v = false)
    /\ NoDup (allBareModuleSpecifiers st').
Proof.
  destruct (flushFileQueue (sampleCollaborators sampleLoad ["src/index.html"])
                           (sampleConfig false) 3 false
                           (mkLoadOptions false false false None) sampleSession)
    as [st'|e|] eqn:Hrun;
    [|vm_compute in Hrun; discriminate | vm_compute in Hrun; discriminate].
  destruct (flush_collects_the_imports_of_what_it_loads _ _ _ _ _ _ _ Hrun)
    as (Hloads & _ & Hbare & Hnd).
  exists st'. split; [reflexivity|]. split; [exact Hloads|]. split.
  - apply Hbare. intros v [].
  - apply Hnd. constructor.
Defined.

(** X9.  What a flush that returns adds to the trace is, for each URL
    loaded and in the order of the loads, the load, the creation of the
    directory of the destination and the writing, at [buildDirectoryLoc]
    joined with the URL, of the contents that the dev server has answered;
    nothing else is written. *)
Theorem flush_writes_each_file_it_loads
        (env : Collaborators) (config : SnowpackConfig) (fuel : nat) (ignorePkg : bool)
        (loadOptions : LoadUrlOptions) (st st' : BuildSession) :
  flushFileQueue env config fuel ignorePkg loadOptions st = Return st' ->
  exists loaded,
    trace st'
    = trace st
      ++ EvFlush ignorePkg loadOptions (allFileUrlsToProcess st)
         :: flat_map (crawlEvents env config loadOptions) loaded
    /\ forall u, In u loaded -> exists result, loadUrl env u loadOptions = inr result.
Proof.
  unfold flushFileQueue. intros Hflush.
  destruct (flushLoop_effects _ _ _ _ _ _ _ Hflush) as (new & Ht & Hflat & Hload & _).
  cbn in Ht. exists (loadedUrls new). split.
  - rewrite Ht, <- app_assoc, <- Hflat. reflexivity.
  - intros u Hu. destruct (Hload u Hu) as (_ & _ & result & Hr & _). now exists result.
Qed.

Lemma flush_writes_each_file_it_loads_witness :
  exists st' loaded,
    flushFileQueue (sampleCollaborators sampleLoad ["src/index.html"]) (sampleConfig false)
                   3 false (mkLoadOptions false false false None) sampleSession = Return st'
    /\ trace st'
       = trace sampleSession
         ++ EvFlush false (mkLoadOptions false false false None) ["/index.html"]
            :: flat_map (crawlEvents (sampleCollaborators sampleLoad ["src/index.html"])
                                     (sampleConfig false)
                                     (mkLoadOptions false false false None)) loaded.
Proof.
  destruct (flushFileQueue (sampleCollaborators sampleLoad ["src/index.html"])
                           (sampleConfig false) 3 false
                           (mkLoadOptions false false false None) sampleSession)
    as [st'|e|] eqn:Hrun;
    [|vm_compute in Hrun; discriminate | vm_compute in Hrun; discriminate].
  destruct (flush_writes_each_file_it_loads _ _ _ _ _ _ _ Hrun) as (loaded & Ht & _).
  exists st', loaded. split; [reflexivity | exact Ht].
Defined.

Lemma flush_collects_the_bare (env : Collaborators) (config : SnowpackConfig)
      (fuel : nat) (ignorePkg : bool) (loadOptions : LoadUrlOptions) (st st' : BuildSession) :
  flushFileQueue env config fuel ignorePkg loadOptions st = Return st' ->
  ((forall v, In v (allBareModuleSpecifiers st) -> startsWith "/" v = false) ->
   forall v, In v (allBareModuleSpecifiers st') -> startsWith "/" v = false)
  /\ (NoDup (allBareModuleSpecifiers st) -> NoDup (allBareModuleSpecifiers st')).
Proof.
  unfold flushFileQueue. intros Hflush.
  destruct (flushLoop_effects _ _ _ _ _ _ _ Hflush)
    as (new & _ & _ & _ & _ & _ & _ & _ & Hb' & Hnd).
  cbn in Hb', Hnd. split; [|exact Hnd].
  intros Hall v Hv. destruct (Hb' v Hv) as [A|A]; [now apply Hall | exact A].
Qed.

(** ** What a build discovers *)

Lemma setOfArray_In (arr : list string) (u : string) : In u (setOfArray arr) <-> In u arr.
Proof.
  unfold setOfArray.
  assert (G : forall s, In u (fold_left (fun s x => setAdd x s) arr s) <-> In u s \/ In u arr).
  { induction arr as [|x arr IH]; intros s; cbn [fold_left].
    - cbn. tauto.
    - rewrite IH, setAdd_In. cbn [In]. intuition congruence. }
  rewrite G. cbn. tauto.
Qed.

(** X10.  The first pass of a build computes the closure of the import
    graph: when it returns, the discovered set holds exactly the URLs that
    can be reached from the mounted URLs through the local imports the dev
    server answers, each once, and each of them has been loaded. *)
Theorem first_pass_discovers_what_is_reachable
        (env : Collaborators) (config : SnowpackConfig) (fuel : nat)
        (allFileUrls : list string) (st1 : BuildSession) :
  mountScan env (mountedFiles env) = Return allFileUrls ->
  buildPass1 env config fuel = Return st1 ->
  (forall u, In u (allFileUrlsUnique st1)
             <-> reachable env (pass1Options config) allFileUrls u)
  /\ NoDup (allFileUrlsUnique st1)
  /\ (forall u, In u (allFileUrlsUnique st1) -> In u (loadedUrls (trace st1))).
Proof.
  intros Hscan Hpass. unfold buildPass1 in Hpass. cbv zeta in Hpass.
  rewrite Hscan in Hpass. cbn [bind] in Hpass.
  pose proof (flushFileQueue_spec _ _ _ _ _ _ _ Hpass) as (_ & _ & _ & Hnd & _).
  unfold flushFileQueue in Hpass.
  pose proof (flushLoop_effects _ _ _ _ _ _ _ Hpass)
    as (new & Ht & _ & Hload & Hq & Ha & Hmono & _).
  pose proof (flushLoop_preserves env config false (pass1Options config)
                (reachable env (pass1Options config) allFileUrls) fuel
                (fun u result v Hu Hl Hv Hs => reachable_import _ _ _ u result v Hu Hl Hv Hs)
                _ _ Hpass) as Hreach.
  cbn [allFileUrlsUnique allFileUrlsToProcess withUnique withToProcess emit trace]
    in Hnd, Ht, Hload, Hq, Ha, Hmono, Hreach.
  assert (Hloaded : forall u, In u (allFileUrlsUnique st1) -> In u (loadedUrls new)).
  { intros u Hu.
    destruct (in_dec string_dec u (setOfArray allFileUrls)) as [Hin|Hout].
    - now apply Hq.
    - now apply Ha. }
  split; [|split].
  - intros u. split.
    + apply Hreach; intros w Hw; apply reachable_root, setOfArray_In, Hw.
    + intros Hr. induction Hr as [u Hroot|u result v _ IH Hl Hv Hs].
      * apply Hmono, setOfArray_In, Hroot.
      * destruct (Hload u (Hloaded u IH)) as (_ & _ & result' & Hl' & Hloc & _).
        rewrite Hl in Hl'. injection Hl' as <-. now apply Hloc.
  - apply Hnd, setOfArray_NoDup.
  - intros u Hu. rewrite Ht, loadedUrls_app. apply in_app_iff. right. now apply Hloaded.
Qed.

Lemma first_pass_discovers_what_is_reachable_witness :
  exists st1,
    buildPass1 (sampleCollaborators sampleLoad ["src/index.html"]) (sampleConfig false) 3
    = Return st1
    /\ (In "/a.js" (allFileUrlsUnique st1)
        <-> reachable (sampleCollaborators sampleLoad ["src/index.html"])
                      (pass1Options (sampleConfig false)) ["/index.html"] "/a.js").
Proof.
  destruct (buildPass1 (sampleCollaborators sampleLoad ["src/index.html"])
                       (sampleConfig false) 3)
    as [st1|e|] eqn:Hrun;
    [|vm_compute in Hrun; discriminate | vm_compute in Hrun; discriminate].
  exists st1. split; [reflexivity|].
  apply (first_pass_discovers_what_is_reachable
           (sampleCollaborators sampleLoad ["src/index.html"]) (sampleConfig false) 3
           ["/index.html"] st1 eq_refl Hrun).
Defined.

(** X11.  A build that returns leaves nothing in the queue; its discovered
    set holds every mounted URL and no URL twice, and its set of bare
    specifiers holds no specifier twice and none that begins with [/]. *)
Theorem build_leaves_consistent_sets
        (env : Collaborators) (config : SnowpackConfig) (fuel : nat)
        (handle : SnowpackBuildResult) (final : BuildSession) :
  build env config fuel = Return (handle, final) ->
  allFileUrlsToProcess final = []
  /\ NoDup (allFileUrlsUnique final)
  /\ NoDup (allBareModuleSpecifiers final)
  /\ (forall v, In v (allBareModuleSpecifiers final) -> startsWith "/" v = false)
  /\ (forall allFileUrls u,
         mountScan env (mountedFiles env) = Return allFileUrls ->
         In u allFileUrls -> In u (allFileUrlsUnique final)).
Proof.
  unfold build.
  destruct (buildPass1 env config fuel) as [st1| |] eqn:H1; cbn [bind]; try discriminate.
  destruct (buildPackages env config st1) as [st2| |] eqn:Hp; cbn [bind]; try discriminate.
  destruct (buildPass2 env config fuel st2) as [st3| |] eqn:H2; cbn [bind]; try discriminate.
  intros Hend.
  assert (Hfinal : allFileUrlsToProcess final = allFileUrlsToProcess st3
                   /\ allFileUrlsUnique final = allFileUrlsUnique st3
                   /\ allBareModuleSpecifiers final = allBareModuleSpecifiers st3).
  { destruct (buildOptions_watch config); injection Hend as _ <-; [now repeat split|].
    unfold buildFinish. destruct (_ || _); now repeat split. }
  destruct Hfinal as (-> & -> & ->).
  assert (Hpackages : allFileUrlsUnique st2 = allFileUrlsUnique st1
                      /\ allBareModuleSpecifiers st2 = allBareModuleSpecifiers st1).
  { unfold buildPackages, installOptimizedDependencies in Hp.
    destruct (negb (buildOptions_watch config)); [|injection Hp as <-; now split].
    destruct (installPackages env _ _ _); cbn [settle bind] in Hp; [discriminate|].
    injection Hp as <-. now split. }
  destruct Hpackages as (Eu & Eb).
  unfold buildPass1 in H1. cbv zeta in H1.
  destruct (mountScan env (mountedFiles env)) as [roots| |] eqn:Hscan;
    cbn [bind] in H1; try discriminate.
  pose proof (flushFileQueue_spec _ _ _ _ _ _ _ H1) as (_ & _ & _ & Hnd1 & _).
  pose proof (flush_collects_the_bare env config _ _ _ _ _ H1) as (Hb1 & Hbn1).
  unfold flushFileQueue in H1.
  pose proof (flushLoop_effects _ _ _ _ _ _ _ H1) as (_ & _ & _ & _ & _ & _ & Hmono1 & _).
  unfold buildPass2 in H2. cbv zeta in H2.
  pose proof (flushFileQueue_spec _ _ _ _ _ _ _ H2) as (Hempty & _ & _ & Hnd2 & _).
  pose proof (flush_collects_the_bare env config _ _ _ _ _ H2) as (Hb2 & Hbn2).
  unfold flushFileQueue in H2.
  pose proof (flushLoop_effects _ _ _ _ _ _ _ H2) as (_ & _ & _ & _ & _ & _ & Hmono2 & _).
  cbn [allFileUrlsUnique allFileUrlsToProcess allBareModuleSpecifiers
       withUnique withToProcess emit] in *.
  assert (Hbare0 : allBareModuleSpecifiers
                     (if buildOptions_clean config
                      then emit (EvDeleteFromBuildSafe (buildDirectoryLoc config))
                                (mkSession [] [] [] None noopCallback [])
                      else mkSession [] [] [] None noopCallback []) = [])
    by (destruct (buildOptions_clean config); reflexivity).
  rewrite Hbare0 in Hb1, Hbn1.
  split; [exact Hempty|]. split.
  { apply Hnd2. rewrite Eu. apply Hnd1, setOfArray_NoDup. }
  split.
  { apply Hbn2. rewrite Eb. apply Hbn1. constructor. }
  split.
  { apply Hb2. rewrite Eb. apply Hb1. intros v []. }
  intros allFileUrls u [= <-] Hu.
  apply Hmono2. rewrite Eu. apply Hmono1, setOfArray_In, Hu.
Qed.

Lemma build_leaves_consistent_sets_witness :
  exists handle final,
    build (sampleCollaborators sampleLoad ["src/index.html"]) (sampleConfig false) 3
    = Return (handle, final)
    /\ allFileUrlsToProcess final = []
    /\ NoDup (allFileUrlsUnique final)
    /\ NoDup (allBareModuleSpecifiers final).
Proof.
  destruct (build (sampleCollaborators sampleLoad ["src/index.html"]) (sampleConfig false) 3)
    as [[handle final]|e|] eqn:Hbuild;
    [|vm_compute in Hbuild; discriminate | vm_compute in Hbuild; discriminate].
  destruct (build_leaves_consistent_sets _ _ _ _ _ Hbuild) as (A & B & C & _).
  exists handle, final. split; [reflexivity|]. now repeat split.
Defined.

(** ** Watching *)

Lemma flushLoop_without_new_imports (env : Collaborators) (config : SnowpackConfig)
      (ignorePkg : bool) (loadOptions : LoadUrlOptions) (known : list string) (fuel : nat) :
  forall st st',
    flushLoop env config fuel ignorePkg loadOptions st = Return st' ->
    allFileUrlsUnique st = known ->
    (forall u result v,
        In u (allFileUrlsToProcess st) -> loadUrl env u loadOptions = inr result ->
        In v (result_imports result) -> startsWith "/" v = true -> In v known) ->
    allFileUrlsUnique st' = known.
Proof.
  induction fuel as [|fuel IH]; intros st st'; [discriminate|].
  cbn [flushLoop].
  destruct (allFileUrlsToProcess st) as [|q0 qs] eqn:Hqueue.
  - now intros [= <-].
  - assert (Hne : allFileUrlsToProcess st <> []) by (rewrite Hqueue; discriminate).
    rewrite <- Hqueue.
    destruct (flushBody env config ignorePkg loadOptions st) as [st1| |] eqn:Hbody;
      cbn [bind]; try discriminate.
    intros Hrest Hknown Hold.
    pose proof (flushBody_spec _ _ _ _ _ _ Hbody)
      as (added & _ & Hu & Hq & _ & Hnew & Hfrom & _).
    pose proof (app_removelast_last EmptyString Hne) as Hsplit.
    assert (Hlast : In (last (allFileUrlsToProcess st) EmptyString) (allFileUrlsToProcess st)).
    { rewrite Hsplit at 2. apply in_app_iff. right. now left. }
    assert (Hnone : added = []).
    { destruct added as [|v added]; [reflexivity | exfalso].
      destruct (Hfrom v (or_introl eq_refl)) as (result & Hload & Hin & Hs).
      apply (Hnew v (or_introl eq_refl)). rewrite Hknown.
      apply (Hold _ _ _ Hlast Hload Hin Hs). }
    subst added. rewrite app_nil_r in Hu, Hq.
    apply (IH _ _ Hrest); [congruence|].
    intros u result v Hin. apply Hold. rewrite Hq in Hin. rewrite Hsplit.
    apply in_app_iff. now left.
Qed.

(** X12.  When the queue is empty and the files at the URLs of a changed
    path import no local URL that is not discovered yet, the handler of
    the change, if it returns, leaves the discovered set as it was and
    loads the URLs of the changed path that are not package URLs, and no
    other. *)
Theorem file_change_without_new_imports_reloads_the_changed_urls
        (env : Collaborators) (config : SnowpackConfig) (fuel : nat)
        (filePath : string) (fileUrls : list string) (st st' : BuildSession) :
  fileChangeHandler env config fuel filePath st = Return st' ->
  getUrlsForFile env filePath = Some fileUrls ->
  allFileUrlsToProcess st = [] ->
  (forall u result v,
      In u fileUrls ->
      loadUrl env u (pass2Options config (optimizedImportMap st)) = inr result ->
      In v (result_imports result) -> startsWith "/" v = true ->
      In v (allFileUrlsUnique st)) ->
  allFileUrlsUnique st' = allFileUrlsUnique st
  /\ exists new,
      trace st' = trace st ++ new
      /\ forall u, In u (loadedUrls new)
                   <-> In u fileUrls /\ passedOver env config true u = false.
Proof.
  unfold fileChangeHandler. intros Hrun Hurls Hqueue Hold. rewrite Hurls in Hrun.
  cbv zeta in Hrun. cbn [optimizedImportMap withToProcess] in Hrun.
  destruct (flushFileQueue env config fuel true _ _) as [st1| |] eqn:Hflush;
    cbn [bind] in Hrun; try discriminate.
  injection Hrun as <-. unfold flushFileQueue in Hflush. rewrite Hqueue in Hflush.
  cbn [app] in Hflush.
  pose proof (flushLoop_without_new_imports _ _ _ _ (allFileUrlsUnique st) _ _ _ Hflush
                                            eq_refl Hold) as Hsame.
  pose proof (flushLoop_effects _ _ _ _ _ _ _ Hflush) as (new & Ht & _ & Hload & Hq & _).
  cbn [allFileUrlsUnique allFileUrlsToProcess withToProcess emit trace] in Hsame, Ht, Hload, Hq.
  split; [exact Hsame|].
  eexists. split.
  - cbn [trace emit]. rewrite Ht, <- !app_assoc. reflexivity.
  - intros u. rewrite !loadedUrls_app. cbn [loadedUrls app]. rewrite app_nil_r.
    split.
    + intros Hu. destruct (Hload u Hu) as (A & [B|[B B']] & _); [now split|].
      rewrite Hsame in B. contradiction.
    + intros [Hin Hn]. now apply Hq.
Qed.

(** A change of [src/index.html] in the sample site, once built. *)
Lemma file_change_without_new_imports_reloads_the_changed_urls_witness :
  exists st',
    fileChangeHandler (sampleCollaborators sampleLoad ["src/index.html"]) (sampleConfig true)
                      2 "src/index.html" sampleWatchSession = Return st'
    /\ allFileUrlsUnique st' = allFileUrlsUnique sampleWatchSession.
Proof.
  destruct (fileChangeHandler (sampleCollaborators sampleLoad ["src/index.html"])
                              (sampleConfig true) 2 "src/index.html" sampleWatchSession)
    as [st'|e|] eqn:Hrun;
    [|vm_compute in Hrun; discriminate | vm_compute in Hrun; discriminate].
  exists st'. split; [reflexivity|].
  refine (proj1 (file_change_without_new_imports_reloads_the_changed_urls
                   _ _ _ _ ["/index.html"] _ _ Hrun eq_refl eq_refl _)).
  intros u result v [<-|[]]. vm_compute. intros [= <-] [<-|[]] _. right. now left.
Defined.

(** ** More on the cleanup of the output tree *)

Lemma filesUnder_holdsFile (n : node) : filesUnder n = [] <-> holdsFile n = false.
Proof.
  induction n as [data|files IH] using node_induction; [split; discriminate|].
  cbn [filesUnder holdsFile].
  induction files as [|[name child] files IHf]; [split; reflexivity|].
  inversion IH as [|? ? Hchild IH']; subst. cbn [snd] in Hchild.
  cbn [flat_map existsb fst snd]. specialize (IHf IH').
  split.
  - intros H. apply app_eq_nil in H as [H1 H2]. apply map_eq_nil in H1.
    apply orb_false_intro; [now apply Hchild | now apply IHf].
  - intros H. apply orb_false_elim in H as [H1 H2].
    rewrite (proj2 Hchild H1), (proj2 IHf H2). reflexivity.
Qed.

(** X13.  [removeEmptyFolders] deletes no regular file and moves none: the
    files below what it leaves are, with their paths and their data, the
    files that were below the node, and a node that it removes had none. *)
Theorem remove_empty_folders_keeps_every_file (n : node) :
  filesUnder n
  = match snd (removeEmptyFolders n) with
    | Some kept => filesUnder kept
    | None => []
    end.
Proof.
  induction n as [data|files IH] using node_induction; [reflexivity|].
  assert (Hclean : flat_map (fun entry =>
                               map (fun file => (fst entry :: fst file, snd file))
                                   (filesUnder (snd entry))) files
                   = flat_map (fun entry =>
                                 map (fun file => (fst entry :: fst file, snd file))
                                     (filesUnder (snd entry))) (cleanEntries files)).
  { induction files as [|[name child] files IHf]; [reflexivity|].
    inversion IH as [|? ? Hchild IH']; subst. cbn [snd] in Hchild.
    rewrite cleanEntries_cons. cbn [flat_map fst snd]. rewrite (IHf IH'), Hchild.
    destruct (snd (removeEmptyFolders child)); reflexivity. }
  rewrite removeEmptyFolders_Dir. cbn [filesUnder]. rewrite Hclean.
  destruct files as [|entry files]; [reflexivity|].
  destruct (cleanEntries (entry :: files)); reflexivity.
Qed.

(** X14.  A second cleanup changes nothing: what [removeEmptyFolders]
    leaves of a node is left as it is by [removeEmptyFolders]. *)
Theorem remove_empty_folders_twice (n kept : node) :
  snd (removeEmptyFolders n) = Some kept ->
  snd (removeEmptyFolders kept) = Some kept.
Proof.
  revert kept. induction n as [data|files IH] using node_induction; intros kept.
  - intros [= <-]. reflexivity.
  - rewrite removeEmptyFolders_Dir.
    assert (Hfix : cleanEntries (cleanEntries files) = cleanEntries files).
    { induction files as [|[name child] files IHf]; [reflexivity|].
      inversion IH as [|? ? Hchild IH']; subst. cbn [snd] in Hchild.
      rewrite cleanEntries_cons.
      destruct (snd (removeEmptyFolders child)) as [child'|] eqn:E; [|now apply IHf].
      rewrite cleanEntries_cons, (Hchild child' eq_refl), (IHf IH'). reflexivity. }
    destruct files as [|entry files]; [discriminate|].
    destruct (cleanEntries (entry :: files)) as [|entry' files'] eqn:E; [discriminate|].
    cbn [snd]. intros [= <-]. rewrite removeEmptyFolders_Dir, Hfix. reflexivity.
Qed.

Lemma remove_empty_folders_twice_witness :
  snd (removeEmptyFolders
         (Dir [("index.html", File "x"); ("js", Dir [("a.js", File "y")])]))
  = Some (Dir [("index.html", File "x"); ("js", Dir [("a.js", File "y")])]).
Proof.
  apply (remove_empty_folders_twice
           (Dir [("assets", Dir [("img", Dir [])]); ("index.html", File "x");
                 ("js", Dir [("a.js", File "y"); ("tmp", Dir [])])])).
  reflexivity.
Defined.

(** ** More on errors *)

Local Open Scope string_scope.

Lemma transformEsmImports_throw_parse
      (parse : string -> string + list ImportSpecifier)
      (matchDynamicImportValue : string -> option string)
      (code : string) (replaceImport : string -> string) (e : error) :
  transformEsmImports parse matchDynamicImportValue code replaceImport = Throw e ->
  exists message, e = ExternalError message /\ parse code = inl message.
Proof.
  unfold transformEsmImports, scanCodeImportsExports.
  destruct (parse code) as [message|imports]; cbn [bind]; [|discriminate].
  intros [= <-]. now exists message.
Qed.

(** X15.  The only errors of [transformFileImports] are the
    incompatible-filetype error, for a file that is none of [.js], [.html],
    [.css], and, for a [.js] or [.html] file, an error of the lexer on the
    script or on an inline script; the rewriting of a [.css] file throws
    nothing. *)
Theorem transformFileImports_throws_only_two_errors
        (parse : string -> string + list ImportSpecifier)
        (matchDynamicImportValue : string -> option string)
        (HTML_JS_REGEX HTML_STYLE_REGEX : RegExpExec)
        (fuel : nat) (file : SnowpackSourceFile) (replaceImport : string -> string)
        (e : error) :
  transformFileImports parse matchDynamicImportValue HTML_JS_REGEX HTML_STYLE_REGEX
                       fuel file replaceImport = Throw e ->
  (e = IncompatibleFiletype (baseExt file)
   /\ ~ In (baseExt file) [".js"; ".html"; ".css"])
  \/ (exists message script,
         e = ExternalError message /\ parse script = inl message
         /\ (baseExt file = ".js" /\ script = contents file \/ baseExt file = ".html")).
Proof.
  unfold transformFileImports.
  destruct (String.eqb_spec (baseExt file) ".js") as [Ejs|Njs].
  { intros H. apply transformEsmImports_throw_parse in H as (message & -> & Hp).
    right. exists message, (contents file). split; [reflexivity|]. split; [exact Hp|].
    left. now split. }
  destruct (String.eqb_spec (baseExt file) ".html") as [Ehtml|Nhtml].
  { unfold transformHtmlImports. intros H.
    destruct (htmlLoop HTML_JS_REGEX _ fuel (contents file) 0) as [code1|e1|] eqn:H1;
      cbn [bind] in H; try discriminate.
    - apply htmlLoop_throw in H as [body H]. now apply cssLoop_never_throws in H.
    - injection H as ->. apply htmlLoop_throw in H1 as [body H1].
      apply transformEsmImports_throw_parse in H1 as (message & -> & Hp).
      right. exists message, body. split; [reflexivity|]. split; [exact Hp | now right]. }
  destruct (String.eqb_spec (baseExt file) ".css") as [Ecss|Ncss].
  { intros H. now apply cssLoop_never_throws in H. }
  intros [= <-]. left. split; [reflexivity|].
  intros [E|[E|[E|[]]]]; congruence.
Qed.

(** A script that the sample lexer does not know. *)
Lemma transformFileImports_throws_only_two_errors_witness :
  (ExternalError "parse error" = IncompatibleFiletype ".js"
   /\ ~ In ".js" [".js"; ".html"; ".css"])
  \/ (exists message script,
         ExternalError "parse error" = ExternalError message
         /\ sampleParse "import './a.js';" [mkImport 8 14 (-1)] script = inl message
         /\ (".js" = ".js" /\ script = "import {" \/ ".js" = ".html")).
Proof.
  exact (transformFileImports_throws_only_two_errors
           (sampleParse "import './a.js';" [mkImport 8 14 (-1)]) (fun _ => None)
           noMatch noMatch 1 (mkSource ".js" "import {") identity
           (ExternalError "parse error") eq_refl).
Defined.

Local Open Scope list_scope.

(** ** The second pass *)

(** X19.  The second pass of a build, when it returns, has loaded every
    URL of the discovered set, as it stands after the pass, that it does
    not pass over as a package URL, and has loaded no URL twice. *)
Theorem second_pass_loads_every_discovered_url_once
        (env : Collaborators) (config : SnowpackConfig) (fuel : nat)
        (st st' : BuildSession) :
  buildPass2 env config fuel st = Return st' ->
  NoDup (allFileUrlsUnique st) ->
  exists crawl,
    trace st'
    = trace st
      ++ EvFlush (negb (buildOptions_watch config))
                 (pass2Options config (optimizedImportMap st)) (allFileUrlsUnique st)
         :: crawl
    /\ NoDup (loadedUrls crawl)
    /\ forall u,
      In u (loadedUrls crawl)
      <-> In u (allFileUrlsUnique st')
          /\ passedOver env config (negb (buildOptions_watch config)) u = false.
Proof.
  unfold buildPass2. cbv zeta. cbn [optimizedImportMap withToProcess].
  intros Hpass Hnd.
  pose proof (flushFileQueue_spec _ _ _ _ _ _ _ Hpass)
    as (_ & _ & _ & _ & added & crawl & _ & Ht & _ & Honce).
  unfold flushFileQueue in Hpass.
  pose proof (flushLoop_effects _ _ _ _ _ _ _ Hpass)
    as (new & Ht' & _ & Hload & Hq & Ha & Hmono & _).
  cbn [allFileUrlsUnique allFileUrlsToProcess withToProcess emit trace]
    in Ht, Honce, Ht', Hload, Hq, Ha, Hmono.
  assert (Hsame : new = crawl).
  { rewrite Ht' in Ht. rewrite <- app_assoc in Ht. apply app_inv_head in Ht.
    now injection Ht. }
  subst new. exists crawl. split; [exact Ht|]. split.
  - apply Honce; [exact Hnd | intros u H; exact H].
  - intros u. split.
    + intros Hu. destruct (Hload u Hu) as (A & [B|[B _]] & _); split;
        try exact A; [now apply Hmono | exact B].
    + intros [Hin Hn].
      destruct (in_dec string_dec u (allFileUrlsUnique st)) as [Hold|Hnew];
        [now apply Hq | now apply Ha].
Qed.

Lemma second_pass_loads_every_discovered_url_once_witness :
  exists st' crawl,
    buildPass2 (sampleCollaborators sampleLoad ["src/index.html"]) (sampleConfig false) 3
               sampleWatchSession = Return st'
    /\ trace st'
       = trace sampleWatchSession
         ++ EvFlush true (pass2Options (sampleConfig false) None) ["/index.html"; "/a.js"]
            :: crawl
    /\ NoDup (loadedUrls crawl).
Proof.
  destruct (buildPass2 (sampleCollaborators sampleLoad ["src/index.html"])
                       (sampleConfig false) 3 sampleWatchSession)
    as [st'|e|] eqn:Hrun;
    [|vm_compute in Hrun; discriminate | vm_compute in Hrun; discriminate].
  destruct (second_pass_loads_every_discovered_url_once _ _ _ _ _ Hrun) as (crawl & A & B & _).
  - repeat constructor; cbn; intuition discriminate.
  - exists st', crawl. split; [reflexivity|]. now split.
Defined.
